(** * The MessagePack packing template of salt (salt/msgpack)

    A shallow embedding of [salt/msgpack/sysdep.h] (byte-order utilities)
    and [salt/msgpack/pack_template.h] (the packing routines), with the
    properties of the encoder stated and proved over it.

    Conventions.
    - A C integer of width [w] bits is a [Z]; conversions to a fixed-width
      unsigned type are written out as [_ mod 2 ^ w].  An [int] is assumed to
      have at least 32 bits, an [unsigned int] exactly 32, a [size_t] 64.
    - A byte is a [Z] in [0, 256); a buffer is a [list Z].
    - The host byte order ([__LITTLE_ENDIAN__] or [__BIG_ENDIAN__]) is a value
      of [byte_order]; memory accesses such as [((uint8_t* )&d)[0]] and
      [*(uint16_t* )&buf[1] = v] go through the object representation of the
      value in that order.
    - The template is parameterised by [msgpack_pack_user] and
      [msgpack_pack_append_buffer], which the including file defines; they
      are the variables of Section [pack_template].
    - The routines for the native C types ([_short], [_int], [_long], ...)
      expand to the [msgpack_pack_real_*] macro selected for the build
      target; Module [NativeTypes] embeds the selection for targets with
      8-bit bytes whose native integer types have 2, 4 or 8 bytes, [int] at
      least 4 and [long] no fewer than [int]. *)

From Stdlib Require Import ZArith List Lia Bool.
From coqutil Require Import Z.bitblast.
Import ListNotations.
Local Open Scope Z_scope.

(** ** Object representations *)

Inductive byte_order : Type :=
| LittleEndian   (* __LITTLE_ENDIAN__ *)
| BigEndian.     (* __BIG_ENDIAN__ *)

(** The [n] low-order bytes of [x], least significant first. *)
Fixpoint le_bytes (n : nat) (x : Z) : list Z :=
  match n with
  | O => []
  | S n' => x mod 256 :: le_bytes n' (x / 256)
  end.

(** The same bytes, most significant first (network order). *)
Definition be_bytes (n : nat) (x : Z) : list Z := rev (le_bytes n x).

(** The value of a byte sequence read least significant byte first. *)
Fixpoint le_value (l : list Z) : Z :=
  match l with
  | [] => 0
  | b :: t => b + 256 * le_value t
  end.

Definition be_value (l : list Z) : Z := le_value (rev l).

(** The bytes of an [n]-byte integer object holding [x], in address order. *)
Definition object_bytes (host : byte_order) (n : nat) (x : Z) : list Z :=
  match host with
  | LittleEndian => le_bytes n x
  | BigEndian => be_bytes n x
  end.

(** [byte_at i x] is byte [i] of [x], byte 0 being the least significant. *)
Definition byte_at (i : Z) (x : Z) : Z := Z.land (Z.shiftr x (8 * i)) 255.

Definition is_byte (b : Z) : Prop := 0 <= b < 256.

(** ** sysdep.h *)

Module Sysdep.

(** [ntohs] and [ntohl] of the C library: the argument is converted to
    [uint16_t] / [uint32_t], and the result is the value obtained by
    reading the argument's object representation in network order. *)
Definition ntohs (host : byte_order) (x : Z) : Z :=
  be_value (object_bytes host 2 (x mod 2 ^ 16)).

Definition ntohl (host : byte_order) (x : Z) : Z :=
  be_value (object_bytes host 4 (x mod 2 ^ 32)).

(** [((uint64_t)x) << k] *)
Definition shl64 (x k : Z) : Z := Z.shiftl (x mod 2 ^ 64) k mod 2 ^ 64.

(** [((uint64_t)x) >> k] *)
Definition shr64 (x k : Z) : Z := Z.shiftr (x mod 2 ^ 64) k.

(** The portable definition of [_msgpack_be64] under [__LITTLE_ENDIAN__]. *)
Definition byteswap64 (x : Z) : Z :=
  Z.lor (Z.land (shl64 x 56) 0xff00000000000000)
 (Z.lor (Z.land (shl64 x 40) 0x00ff000000000000)
 (Z.lor (Z.land (shl64 x 24) 0x0000ff0000000000)
 (Z.lor (Z.land (shl64 x  8) 0x000000ff00000000)
 (Z.lor (Z.land (shr64 x  8) 0x00000000ff000000)
 (Z.lor (Z.land (shr64 x 24) 0x0000000000ff0000)
 (Z.lor (Z.land (shr64 x 40) 0x000000000000ff00)
        (Z.land (shr64 x 56) 0x00000000000000ff))))))).

Definition _msgpack_be16 (host : byte_order) (x : Z) : Z :=
  match host with
  | LittleEndian => ntohs host x
  | BigEndian => x
  end.

Definition _msgpack_be32 (host : byte_order) (x : Z) : Z :=
  match host with
  | LittleEndian => ntohl host x
  | BigEndian => x
  end.

Definition _msgpack_be64 (host : byte_order) (x : Z) : Z :=
  match host with
  | LittleEndian => byteswap64 x
  | BigEndian => x
  end.

End Sysdep.

(** ** pack_template.h *)

Module PackTemplate.
Import Sysdep.

Section pack_template.

(** The byte order the template is compiled for. *)
Variable host : byte_order.

(** The parameters the including file must define.  Every path of every
    routine ends in one [msgpack_pack_append_buffer] statement, so a routine
    is the outcome of that call, whatever the includer makes it. *)
Variable msgpack_pack_user : Type.
Variable result : Type.
Variable msgpack_pack_append_buffer : msgpack_pack_user -> list Z -> result.

(** [TAKE8_n(d)]: one byte of the object [d], [n] bits wide. *)
Definition TAKE8_8 (d : Z) : Z :=
  match host with
  | LittleEndian => nth 0 (object_bytes host 1 d) 0
  | BigEndian => nth 0 (object_bytes host 1 d) 0
  end.

Definition TAKE8_16 (d : Z) : Z :=
  match host with
  | LittleEndian => nth 0 (object_bytes host 2 d) 0
  | BigEndian => nth 1 (object_bytes host 2 d) 0
  end.

Definition TAKE8_32 (d : Z) : Z :=
  match host with
  | LittleEndian => nth 0 (object_bytes host 4 d) 0
  | BigEndian => nth 3 (object_bytes host 4 d) 0
  end.

Definition TAKE8_64 (d : Z) : Z :=
  match host with
  | LittleEndian => nth 0 (object_bytes host 8 d) 0
  | BigEndian => nth 7 (object_bytes host 8 d) 0
  end.

(** [*(uint16_t* )&buf[1] = v] and its wider forms: the bytes written. *)
Definition store_uint16 (v : Z) : list Z := object_bytes host 2 (v mod 2 ^ 16).
Definition store_uint32 (v : Z) : list Z := object_bytes host 4 (v mod 2 ^ 32).
Definition store_uint64 (v : Z) : list Z := object_bytes host 8 (v mod 2 ^ 64).

(** *** Integer *)

Definition msgpack_pack_real_uint8 (x : msgpack_pack_user) (d : Z) : result :=
  if d <? Z.shiftl 1 7 then
    (* fixnum *)
    msgpack_pack_append_buffer x [TAKE8_8 d]
  else
    (* unsigned 8 *)
    msgpack_pack_append_buffer x [0xcc; TAKE8_8 d].

Definition msgpack_pack_real_uint16 (x : msgpack_pack_user) (d : Z) : result :=
  if d <? Z.shiftl 1 7 then
    (* fixnum *)
    msgpack_pack_append_buffer x [TAKE8_16 d]
  else if d <? Z.shiftl 1 8 then
    (* unsigned 8 *)
    msgpack_pack_append_buffer x [0xcc; TAKE8_16 d]
  else
    (* unsigned 16 *)
    msgpack_pack_append_buffer x (0xcd :: store_uint16 (_msgpack_be16 host d)).

Definition msgpack_pack_real_uint32 (x : msgpack_pack_user) (d : Z) : result :=
  if d <? Z.shiftl 1 8 then
    if d <? Z.shiftl 1 7 then
      (* fixnum *)
      msgpack_pack_append_buffer x [TAKE8_32 d]
    else
      (* unsigned 8 *)
      msgpack_pack_append_buffer x [0xcc; TAKE8_32 d]
  else
    if d <? Z.shiftl 1 16 then
      (* unsigned 16 *)
      msgpack_pack_append_buffer x (0xcd :: store_uint16 (_msgpack_be16 host d))
    else
      (* unsigned 32 *)
      msgpack_pack_append_buffer x (0xce :: store_uint32 (_msgpack_be32 host d)).

Definition msgpack_pack_real_uint64 (x : msgpack_pack_user) (d : Z) : result :=
  if d <? Z.shiftl 1 8 then
    if d <? Z.shiftl 1 7 then
      (* fixnum *)
      msgpack_pack_append_buffer x [TAKE8_64 d]
    else
      (* unsigned 8 *)
      msgpack_pack_append_buffer x [0xcc; TAKE8_64 d]
  else
    if d <? Z.shiftl 1 16 then
      msgpack_pack_append_buffer x (0xcd :: store_uint16 (_msgpack_be16 host d))
    else if d <? Z.shiftl 1 32 then
      msgpack_pack_append_buffer x (0xce :: store_uint32 (_msgpack_be32 host d))
    else
      msgpack_pack_append_buffer x (0xcf :: store_uint64 (_msgpack_be64 host d)).

Definition msgpack_pack_real_int8 (x : msgpack_pack_user) (d : Z) : result :=
  if d <? - Z.shiftl 1 5 then
    (* signed 8 *)
    msgpack_pack_append_buffer x [0xd0; TAKE8_8 d]
  else
    (* fixnum *)
    msgpack_pack_append_buffer x [TAKE8_8 d].

Definition msgpack_pack_real_int16 (x : msgpack_pack_user) (d : Z) : result :=
  if d <? - Z.shiftl 1 5 then
    if d <? - Z.shiftl 1 7 then
      (* signed 16 *)
      msgpack_pack_append_buffer x (0xd1 :: store_uint16 (_msgpack_be16 host d))
    else
      (* signed 8 *)
      msgpack_pack_append_buffer x [0xd0; TAKE8_16 d]
  else if d <? Z.shiftl 1 7 then
    (* fixnum *)
    msgpack_pack_append_buffer x [TAKE8_16 d]
  else
    if d <? Z.shiftl 1 8 then
      (* unsigned 8 *)
      msgpack_pack_append_buffer x [0xcc; TAKE8_16 d]
    else
      (* unsigned 16 *)
      msgpack_pack_append_buffer x (0xcd :: store_uint16 (_msgpack_be16 host d)).

Definition msgpack_pack_real_int32 (x : msgpack_pack_user) (d : Z) : result :=
  if d <? - Z.shiftl 1 5 then
    if d <? - Z.shiftl 1 15 then
      (* signed 32 *)
      msgpack_pack_append_buffer x (0xd2 :: store_uint32 (_msgpack_be32 host d))
    else if d <? - Z.shiftl 1 7 then
      (* signed 16 *)
      msgpack_pack_append_buffer x (0xd1 :: store_uint16 (_msgpack_be16 host d))
    else
      (* signed 8 *)
      msgpack_pack_append_buffer x [0xd0; TAKE8_32 d]
  else if d <? Z.shiftl 1 7 then
    (* fixnum *)
    msgpack_pack_append_buffer x [TAKE8_32 d]
  else
    if d <? Z.shiftl 1 8 then
      (* unsigned 8 *)
      msgpack_pack_append_buffer x [0xcc; TAKE8_32 d]
    else if d <? Z.shiftl 1 16 then
      (* unsigned 16 *)
      msgpack_pack_append_buffer x (0xcd :: store_uint16 (_msgpack_be16 host d))
    else
      (* unsigned 32 *)
      msgpack_pack_append_buffer x (0xce :: store_uint32 (_msgpack_be32 host d)).

Definition msgpack_pack_real_int64 (x : msgpack_pack_user) (d : Z) : result :=
  if d <? - Z.shiftl 1 5 then
    if d <? - Z.shiftl 1 15 then
      if d <? - Z.shiftl 1 31 then
        (* signed 64 *)
        msgpack_pack_append_buffer x (0xd3 :: store_uint64 (_msgpack_be64 host d))
      else
        (* signed 32 *)
        msgpack_pack_append_buffer x (0xd2 :: store_uint32 (_msgpack_be32 host d))
    else
      if d <? - Z.shiftl 1 7 then
        (* signed 16 *)
        msgpack_pack_append_buffer x (0xd1 :: store_uint16 (_msgpack_be16 host d))
      else
        (* signed 8 *)
        msgpack_pack_append_buffer x [0xd0; TAKE8_64 d]
  else if d <? Z.shiftl 1 7 then
    (* fixnum *)
    msgpack_pack_append_buffer x [TAKE8_64 d]
  else
    if d <? Z.shiftl 1 16 then
      if d <? Z.shiftl 1 8 then
        (* unsigned 8 *)
        msgpack_pack_append_buffer x [0xcc; TAKE8_64 d]
      else
        (* unsigned 16 *)
        msgpack_pack_append_buffer x (0xcd :: store_uint16 (_msgpack_be16 host d))
    else
      if d <? Z.shiftl 1 32 then
        (* unsigned 32 *)
        msgpack_pack_append_buffer x (0xce :: store_uint32 (_msgpack_be32 host d))
      else
        (* unsigned 64 *)
        msgpack_pack_append_buffer x (0xcf :: store_uint64 (_msgpack_be64 host d)).

(** The routines generated by [msgpack_pack_inline_func_fastint], present
    when the includer defines it: always the full-width form. *)
Definition fastint_uint8 (x : msgpack_pack_user) (d : Z) : result :=
  msgpack_pack_append_buffer x [0xcc; TAKE8_8 d].

Definition fastint_uint16 (x : msgpack_pack_user) (d : Z) : result :=
  msgpack_pack_append_buffer x (0xcd :: store_uint16 (_msgpack_be16 host d)).

Definition fastint_uint32 (x : msgpack_pack_user) (d : Z) : result :=
  msgpack_pack_append_buffer x (0xce :: store_uint32 (_msgpack_be32 host d)).

Definition fastint_uint64 (x : msgpack_pack_user) (d : Z) : result :=
  msgpack_pack_append_buffer x (0xcf :: store_uint64 (_msgpack_be64 host d)).

Definition fastint_int8 (x : msgpack_pack_user) (d : Z) : result :=
  msgpack_pack_append_buffer x [0xd0; TAKE8_8 d].

Definition fastint_int16 (x : msgpack_pack_user) (d : Z) : result :=
  msgpack_pack_append_buffer x (0xd1 :: store_uint16 (_msgpack_be16 host d)).

Definition fastint_int32 (x : msgpack_pack_user) (d : Z) : result :=
  msgpack_pack_append_buffer x (0xd2 :: store_uint32 (_msgpack_be32 host d)).

Definition fastint_int64 (x : msgpack_pack_user) (d : Z) : result :=
  msgpack_pack_append_buffer x (0xd3 :: store_uint64 (_msgpack_be64 host d)).

(** The routines generated by [msgpack_pack_inline_func]. *)
Definition msgpack_pack_uint8 (x : msgpack_pack_user) (d : Z) : result :=
  msgpack_pack_real_uint8 x d.

Definition msgpack_pack_uint16 (x : msgpack_pack_user) (d : Z) : result :=
  msgpack_pack_real_uint16 x d.

Definition msgpack_pack_uint32 (x : msgpack_pack_user) (d : Z) : result :=
  msgpack_pack_real_uint32 x d.

Definition msgpack_pack_uint64 (x : msgpack_pack_user) (d : Z) : result :=
  msgpack_pack_real_uint64 x d.

Definition msgpack_pack_int8 (x : msgpack_pack_user) (d : Z) : result :=
  msgpack_pack_real_int8 x d.

Definition msgpack_pack_int16 (x : msgpack_pack_user) (d : Z) : result :=
  msgpack_pack_real_int16 x d.

Definition msgpack_pack_int32 (x : msgpack_pack_user) (d : Z) : result :=
  msgpack_pack_real_int32 x d.

Definition msgpack_pack_int64 (x : msgpack_pack_user) (d : Z) : result :=
  msgpack_pack_real_int64 x d.

(** *** Float

    The argument is given by its bit pattern: [num] is what the union
    member [f.num] holds once the float (double) has been stored in it. *)
Definition msgpack_pack_float (x : msgpack_pack_user) (num : Z) : result :=
  msgpack_pack_append_buffer x (0xca :: store_uint32 (_msgpack_be32 host num)).

Definition msgpack_pack_double (x : msgpack_pack_user) (num : Z) : result :=
  msgpack_pack_append_buffer x (0xcb :: store_uint64 (_msgpack_be64 host num)).

(** *** Nil, Boolean *)

Definition msgpack_pack_nil (x : msgpack_pack_user) : result :=
  let d := 0xc0 in msgpack_pack_append_buffer x [d].

Definition msgpack_pack_true (x : msgpack_pack_user) : result :=
  let d := 0xc3 in msgpack_pack_append_buffer x [d].

Definition msgpack_pack_false (x : msgpack_pack_user) : result :=
  let d := 0xc2 in msgpack_pack_append_buffer x [d].

(** *** Array, Map, Raw

    [n] is an [unsigned int], [l] a [size_t]; [unsigned char d = 0x90 | n]
    converts to 8 bits. *)
Definition msgpack_pack_array (x : msgpack_pack_user) (n : Z) : result :=
  if n <? 16 then
    let d := Z.lor 0x90 n mod 2 ^ 8 in
    msgpack_pack_append_buffer x [d]
  else if n <? 65536 then
    msgpack_pack_append_buffer x (0xdc :: store_uint16 (_msgpack_be16 host n))
  else
    msgpack_pack_append_buffer x (0xdd :: store_uint32 (_msgpack_be32 host n)).

Definition msgpack_pack_map (x : msgpack_pack_user) (n : Z) : result :=
  if n <? 16 then
    let d := Z.lor 0x80 n mod 2 ^ 8 in
    msgpack_pack_append_buffer x [TAKE8_8 d]
  else if n <? 65536 then
    msgpack_pack_append_buffer x (0xde :: store_uint16 (_msgpack_be16 host n))
  else
    msgpack_pack_append_buffer x (0xdf :: store_uint32 (_msgpack_be32 host n)).

Definition msgpack_pack_raw (x : msgpack_pack_user) (l : Z) : result :=
  if l <? 32 then
    let d := Z.lor 0xa0 l mod 2 ^ 8 in
    msgpack_pack_append_buffer x [TAKE8_8 d]
  else if l <? 65536 then
    msgpack_pack_append_buffer x (0xda :: store_uint16 (_msgpack_be16 host l))
  else
    msgpack_pack_append_buffer x (0xdb :: store_uint32 (_msgpack_be32 host l)).

(** [b] is the memory from the pointer onwards; [l] bytes of it are passed. *)
Definition msgpack_pack_raw_body (x : msgpack_pack_user) (b : list Z) (l : Z) : result :=
  msgpack_pack_append_buffer x (firstn (Z.to_nat l) b).

End pack_template.

End PackTemplate.

Import Sysdep PackTemplate.

Arguments msgpack_pack_real_uint64 host {msgpack_pack_user result} _ _ _.
Arguments msgpack_pack_real_int16 host {msgpack_pack_user result} _ _ _.
Arguments msgpack_pack_real_int64 host {msgpack_pack_user result} _ _ _.
Arguments msgpack_pack_uint8 host {msgpack_pack_user result} _ _ _.
Arguments msgpack_pack_uint16 host {msgpack_pack_user result} _ _ _.
Arguments msgpack_pack_uint32 host {msgpack_pack_user result} _ _ _.
Arguments msgpack_pack_uint64 host {msgpack_pack_user result} _ _ _.
Arguments msgpack_pack_int8 host {msgpack_pack_user result} _ _ _.
Arguments msgpack_pack_int16 host {msgpack_pack_user result} _ _ _.
Arguments msgpack_pack_int32 host {msgpack_pack_user result} _ _ _.
Arguments msgpack_pack_int64 host {msgpack_pack_user result} _ _ _.
Arguments fastint_uint8 host {msgpack_pack_user result} _ _ _.
Arguments fastint_uint16 host {msgpack_pack_user result} _ _ _.
Arguments fastint_uint32 host {msgpack_pack_user result} _ _ _.
Arguments fastint_uint64 host {msgpack_pack_user result} _ _ _.
Arguments fastint_int8 host {msgpack_pack_user result} _ _ _.
Arguments fastint_int16 host {msgpack_pack_user result} _ _ _.
Arguments fastint_int32 host {msgpack_pack_user result} _ _ _.
Arguments fastint_int64 host {msgpack_pack_user result} _ _ _.
Arguments msgpack_pack_float host {msgpack_pack_user result} _ _ _.
Arguments msgpack_pack_double host {msgpack_pack_user result} _ _ _.
Arguments msgpack_pack_nil {msgpack_pack_user result} _ _.
Arguments msgpack_pack_true {msgpack_pack_user result} _ _.
Arguments msgpack_pack_false {msgpack_pack_user result} _ _.
Arguments msgpack_pack_array host {msgpack_pack_user result} _ _ _.
Arguments msgpack_pack_map host {msgpack_pack_user result} _ _ _.
Arguments msgpack_pack_raw host {msgpack_pack_user result} _ _ _.
Arguments msgpack_pack_raw_body {msgpack_pack_user result} _ _ _ _.

(** ** Sinks *)

(** A growable buffer: appending never fails, the result is the new buffer. *)
Definition buffer : Type := list Z.

Definition buffer_append (x : buffer) (buf : list Z) : buffer := x ++ buf.

(** A buffer of bounded capacity: an append that does not fit fails and
    leaves nothing behind. *)
Definition bounded_append (capacity : nat) (x : buffer) (buf : list Z) : option buffer :=
  if (length (x ++ buf) <=? capacity)%nat then Some (x ++ buf) else None.

(** ** The encode operations, with their arguments *)

Inductive pack_op : Type :=
| op_uint8 (d : Z) | op_uint16 (d : Z) | op_uint32 (d : Z) | op_uint64 (d : Z)
| op_int8 (d : Z) | op_int16 (d : Z) | op_int32 (d : Z) | op_int64 (d : Z)
| op_fix_uint8 (d : Z) | op_fix_uint16 (d : Z) | op_fix_uint32 (d : Z) | op_fix_uint64 (d : Z)
| op_fix_int8 (d : Z) | op_fix_int16 (d : Z) | op_fix_int32 (d : Z) | op_fix_int64 (d : Z)
| op_float (num : Z) | op_double (num : Z)
| op_nil | op_true | op_false
| op_array (n : Z) | op_map (n : Z) | op_raw (l : Z)
| op_raw_body (b : list Z) (l : Z).

Definition run_op (host : byte_order) {user result : Type}
    (append : user -> list Z -> result) (x : user) (o : pack_op) : result :=
  match o with
  | op_uint8 d => msgpack_pack_uint8 host append x d
  | op_uint16 d => msgpack_pack_uint16 host append x d
  | op_uint32 d => msgpack_pack_uint32 host append x d
  | op_uint64 d => msgpack_pack_uint64 host append x d
  | op_int8 d => msgpack_pack_int8 host append x d
  | op_int16 d => msgpack_pack_int16 host append x d
  | op_int32 d => msgpack_pack_int32 host append x d
  | op_int64 d => msgpack_pack_int64 host append x d
  | op_fix_uint8 d => fastint_uint8 host append x d
  | op_fix_uint16 d => fastint_uint16 host append x d
  | op_fix_uint32 d => fastint_uint32 host append x d
  | op_fix_uint64 d => fastint_uint64 host append x d
  | op_fix_int8 d => fastint_int8 host append x d
  | op_fix_int16 d => fastint_int16 host append x d
  | op_fix_int32 d => fastint_int32 host append x d
  | op_fix_int64 d => fastint_int64 host append x d
  | op_float num => msgpack_pack_float host append x num
  | op_double num => msgpack_pack_double host append x num
  | op_nil => msgpack_pack_nil append x
  | op_true => msgpack_pack_true append x
  | op_false => msgpack_pack_false append x
  | op_array n => msgpack_pack_array host append x n
  | op_map n => msgpack_pack_map host append x n
  | op_raw l => msgpack_pack_raw host append x l
  | op_raw_body b l => msgpack_pack_raw_body append x b l
  end.

(** The bytes an operation leaves in an empty growable buffer. *)
Definition encoding (host : byte_order) (o : pack_op) : list Z :=
  run_op host buffer_append [] o.

(** The argument is a value of the operation's C parameter type. *)
Definition valid_op (o : pack_op) : Prop :=
  match o with
  | op_uint8 d | op_fix_uint8 d => 0 <= d < 2 ^ 8
  | op_uint16 d | op_fix_uint16 d => 0 <= d < 2 ^ 16
  | op_uint32 d | op_fix_uint32 d => 0 <= d < 2 ^ 32
  | op_uint64 d | op_fix_uint64 d => 0 <= d < 2 ^ 64
  | op_int8 d | op_fix_int8 d => - 2 ^ 7 <= d < 2 ^ 7
  | op_int16 d | op_fix_int16 d => - 2 ^ 15 <= d < 2 ^ 15
  | op_int32 d | op_fix_int32 d => - 2 ^ 31 <= d < 2 ^ 31
  | op_int64 d | op_fix_int64 d => - 2 ^ 63 <= d < 2 ^ 63
  | op_float num => 0 <= num < 2 ^ 32
  | op_double num => 0 <= num < 2 ^ 64
  | op_nil | op_true | op_false => True
  | op_array n | op_map n => 0 <= n < 2 ^ 32
  | op_raw l => 0 <= l < 2 ^ 64
  | op_raw_body b l => 0 <= l <= Z.of_nat (length b) /\ Forall is_byte b
  end.

(** The operations that emit a tag byte: all but the raw body. *)
Definition emits_tag (o : pack_op) : bool :=
  match o with
  | op_raw_body _ _ => false
  | _ => true
  end.

(** The signed encode operation for a source width of [w] bits. *)
Definition op_int (w : Z) (d : Z) : pack_op :=
  if w =? 8 then op_int8 d
  else if w =? 16 then op_int16 d
  else if w =? 32 then op_int32 d
  else op_int64 d.

(** ** The wire format, in the words of the specification *)

Module Wire.

Inductive int_form : Type :=
| PosFixnum | NegFixnum
| Uint8 | Uint16 | Uint32 | Uint64
| Int8 | Int16 | Int32 | Int64.

(** The representable range of a form, [lo <= v < hi]. *)
Definition form_lo (f : int_form) : Z :=
  match f with
  | PosFixnum | Uint8 | Uint16 | Uint32 | Uint64 => 0
  | NegFixnum => - 2 ^ 5
  | Int8 => - 2 ^ 7
  | Int16 => - 2 ^ 15
  | Int32 => - 2 ^ 31
  | Int64 => - 2 ^ 63
  end.

Definition form_hi (f : int_form) : Z :=
  match f with
  | PosFixnum => 2 ^ 7
  | NegFixnum => 0
  | Uint8 => 2 ^ 8
  | Uint16 => 2 ^ 16
  | Uint32 => 2 ^ 32
  | Uint64 => 2 ^ 64
  | Int8 => 2 ^ 7
  | Int16 => 2 ^ 15
  | Int32 => 2 ^ 31
  | Int64 => 2 ^ 63
  end.

Definition in_range (f : int_form) (v : Z) : Prop := form_lo f <= v < form_hi f.

(** Number of payload bytes after the tag. *)
Definition form_payload (f : int_form) : nat :=
  match f with
  | PosFixnum | NegFixnum => 0
  | Uint8 | Int8 => 1
  | Uint16 | Int16 => 2
  | Uint32 | Int32 => 4
  | Uint64 | Int64 => 8
  end.

Definition form_size (f : int_form) : nat := S (form_payload f).

Definition form_tag (f : int_form) (v : Z) : Z :=
  match f with
  | PosFixnum | NegFixnum => v mod 256
  | Uint8 => 0xcc | Uint16 => 0xcd | Uint32 => 0xce | Uint64 => 0xcf
  | Int8 => 0xd0 | Int16 => 0xd1 | Int32 => 0xd2 | Int64 => 0xd3
  end.

(** Tag, then the payload in big-endian order. *)
Definition form_encode (f : int_form) (v : Z) : list Z :=
  form_tag f v :: be_bytes (form_payload f) v.

(** [f] is a narrowest form whose range contains [v]. *)
Definition narrowest (f : int_form) (v : Z) : Prop :=
  in_range f v /\ forall g, in_range g v -> (form_size f <= form_size g)%nat.

(** The unused tag values. *)
Definition reserved_tag (b : Z) : bool :=
  (b =? 0xc1) || ((0xc4 <=? b) && (b <=? 0xc9)) || ((0xd4 <=? b) && (b <=? 0xd9)).

(** The tag ranges of the wire format: fix forms, nil, booleans, floats,
    unsigned and signed widths, raw/array/map 16 and 32. *)
Definition listed_tag (b : Z) : bool :=
  ((0x00 <=? b) && (b <=? 0xbf)) || (b =? 0xc0) || (b =? 0xc2) || (b =? 0xc3)
  || ((0xca <=? b) && (b <=? 0xcf)) || ((0xd0 <=? b) && (b <=? 0xd3))
  || ((0xda <=? b) && (b <=? 0xdf)).

(** The negative fixnum range. *)
Definition negative_fixnum_tag (b : Z) : bool := (0xe0 <=? b) && (b <=? 0xff).

Definition wire_tag (b : Z) : bool := listed_tag b || negative_fixnum_tag b.

End Wire.

(** ** pack_template.h: the routines for the native C types

    Generated by [msgpack_pack_inline_func_cint] when the includer defines
    it.  Each one picks a [msgpack_pack_real_*] macro from the size of its
    parameter type on the build target: by the preprocessor when one of the
    macros [SIZEOF_T] or [T_MAX] is defined, by [sizeof] otherwise. *)

Arguments msgpack_pack_real_uint16 host {msgpack_pack_user result} _ _ _.
Arguments msgpack_pack_real_uint32 host {msgpack_pack_user result} _ _ _.
Arguments msgpack_pack_real_int32 host {msgpack_pack_user result} _ _ _.

Module NativeTypes.

(** The size of a native integer type, in 8-bit bytes: 2, 4 or 8. *)
Inductive native_size : Type := Size2 | Size4 | Size8.

Definition sizeof (s : native_size) : Z :=
  match s with
  | Size2 => 2
  | Size4 => 4
  | Size8 => 8
  end.

Definition sizeof_nat (s : native_size) : nat := Z.to_nat (sizeof s).

(** The limits of a type of that size, as [<limits.h>] gives them. *)
Definition signed_max (s : native_size) : Z := 2 ^ (8 * sizeof s - 1) - 1.
Definition unsigned_max (s : native_size) : Z := 2 ^ (8 * sizeof s) - 1.

(** A build target: the sizes of the native types, and which of the macros
    the template tests are defined.  A macro that is defined tells the truth
    about the type.  An [int] has at least 32 bits, as the macros need it
    for [1<<16] and [-(1<<15)], and a [long] is at least as wide as an
    [int]. *)
Record target : Type := {
  size_short : native_size;
  size_int : native_size;
  size_long : native_size;
  size_long_long : native_size;
  defined_SIZEOF_SHORT : bool;
  defined_SHRT_MAX : bool;
  defined_USHRT_MAX : bool;
  defined_SIZEOF_INT : bool;
  defined_INT_MAX : bool;
  defined_UINT_MAX : bool;
  defined_SIZEOF_LONG : bool;
  defined_LONG_MAX : bool;
  defined_ULONG_MAX : bool;
  defined_SIZEOF_LONG_LONG : bool;
  defined_LLONG_MAX : bool;
  defined_ULLONG_MAX : bool;
  int_at_least_32_bits : 4 <= sizeof size_int;
  int_within_long : sizeof size_int <= sizeof size_long
}.

(** A 64-bit target with the usual sizes on which [<limits.h>] is in scope
    and no [SIZEOF_*] macro is defined. *)
Definition lp64_with_limits : target :=
  {| size_short := Size2; size_int := Size4; size_long := Size8;
     size_long_long := Size8;
     defined_SIZEOF_SHORT := false; defined_SHRT_MAX := true;
     defined_USHRT_MAX := true;
     defined_SIZEOF_INT := false; defined_INT_MAX := true;
     defined_UINT_MAX := true;
     defined_SIZEOF_LONG := false; defined_LONG_MAX := true;
     defined_ULONG_MAX := true;
     defined_SIZEOF_LONG_LONG := false; defined_LLONG_MAX := true;
     defined_ULLONG_MAX := true;
     int_at_least_32_bits := ltac:(cbv; discriminate);
     int_within_long := ltac:(cbv; discriminate) |}.

(** The same sizes with none of the macros defined. *)
Definition lp64_bare : target :=
  {| size_short := Size2; size_int := Size4; size_long := Size8;
     size_long_long := Size8;
     defined_SIZEOF_SHORT := false; defined_SHRT_MAX := false;
     defined_USHRT_MAX := false;
     defined_SIZEOF_INT := false; defined_INT_MAX := false;
     defined_UINT_MAX := false;
     defined_SIZEOF_LONG := false; defined_LONG_MAX := false;
     defined_ULONG_MAX := false;
     defined_SIZEOF_LONG_LONG := false; defined_LLONG_MAX := false;
     defined_ULLONG_MAX := false;
     int_at_least_32_bits := ltac:(cbv; discriminate);
     int_within_long := ltac:(cbv; discriminate) |}.

(** The value of an identifier in an [#if] expression: its definition, or 0
    when it is not defined. *)
Definition macro_value (defined : bool) (value : Z) : Z :=
  if defined then value else 0.

Section native_types.

Variable host : byte_order.
Variable msgpack_pack_user : Type.
Variable result : Type.
Variable msgpack_pack_append_buffer : msgpack_pack_user -> list Z -> result.

(** *** The unsigned macros on an object of another size

    The [sizeof] path of [_unsigned_long] applies the macro chosen for
    [unsigned int] to an [unsigned long] object: [TAKE8_n(d)] then indexes
    the bytes of an object [size] bytes wide. *)
Variable size : nat.

Definition TAKE8_16_in (d : Z) : Z :=
  match host with
  | LittleEndian => nth 0 (object_bytes host size d) 0
  | BigEndian => nth 1 (object_bytes host size d) 0
  end.

Definition TAKE8_32_in (d : Z) : Z :=
  match host with
  | LittleEndian => nth 0 (object_bytes host size d) 0
  | BigEndian => nth 3 (object_bytes host size d) 0
  end.

Definition TAKE8_64_in (d : Z) : Z :=
  match host with
  | LittleEndian => nth 0 (object_bytes host size d) 0
  | BigEndian => nth 7 (object_bytes host size d) 0
  end.

Definition msgpack_pack_real_uint16_in (x : msgpack_pack_user) (d : Z) : result :=
  if d <? Z.shiftl 1 7 then
    (* fixnum *)
    msgpack_pack_append_buffer x [TAKE8_16_in d]
  else if d <? Z.shiftl 1 8 then
    (* unsigned 8 *)
    msgpack_pack_append_buffer x [0xcc; TAKE8_16_in d]
  else
    (* unsigned 16 *)
    msgpack_pack_append_buffer x (0xcd :: store_uint16 host (_msgpack_be16 host d)).

Definition msgpack_pack_real_uint32_in (x : msgpack_pack_user) (d : Z) : result :=
  if d <? Z.shiftl 1 8 then
    if d <? Z.shiftl 1 7 then
      (* fixnum *)
      msgpack_pack_append_buffer x [TAKE8_32_in d]
    else
      (* unsigned 8 *)
      msgpack_pack_append_buffer x [0xcc; TAKE8_32_in d]
  else
    if d <? Z.shiftl 1 16 then
      (* unsigned 16 *)
      msgpack_pack_append_buffer x (0xcd :: store_uint16 host (_msgpack_be16 host d))
    else
      (* unsigned 32 *)
      msgpack_pack_append_buffer x (0xce :: store_uint32 host (_msgpack_be32 host d)).

Definition msgpack_pack_real_uint64_in (x : msgpack_pack_user) (d : Z) : result :=
  if d <? Z.shiftl 1 8 then
    if d <? Z.shiftl 1 7 then
      (* fixnum *)
      msgpack_pack_append_buffer x [TAKE8_64_in d]
    else
      (* unsigned 8 *)
      msgpack_pack_append_buffer x [0xcc; TAKE8_64_in d]
  else
    if d <? Z.shiftl 1 16 then
      msgpack_pack_append_buffer x (0xcd :: store_uint16 host (_msgpack_be16 host d))
    else if d <? Z.shiftl 1 32 then
      msgpack_pack_append_buffer x (0xce :: store_uint32 host (_msgpack_be32 host d))
    else
      msgpack_pack_append_buffer x (0xcf :: store_uint64 host (_msgpack_be64 host d)).

End native_types.

Arguments msgpack_pack_real_uint16_in host {msgpack_pack_user result} _ size _ _.
Arguments msgpack_pack_real_uint32_in host {msgpack_pack_user result} _ size _ _.
Arguments msgpack_pack_real_uint64_in host {msgpack_pack_user result} _ size _ _.

Section native_routines.

Variable host : byte_order.
Variable tgt : target.
Variable msgpack_pack_user : Type.
Variable result : Type.
Variable msgpack_pack_append_buffer : msgpack_pack_user -> list Z -> result.

(** *** Signed *)

Definition msgpack_pack_short (x : msgpack_pack_user) (d : Z) : result :=
  let SIZEOF_SHORT := macro_value (defined_SIZEOF_SHORT tgt) (sizeof (size_short tgt)) in
  let SHRT_MAX := macro_value (defined_SHRT_MAX tgt) (signed_max (size_short tgt)) in
  if defined_SIZEOF_SHORT tgt || defined_SHRT_MAX tgt then
    if (SIZEOF_SHORT =? 2) || (SHRT_MAX =? 0x7fff) then
      msgpack_pack_real_int16 host msgpack_pack_append_buffer x d
    else if (SIZEOF_SHORT =? 4) || (SHRT_MAX =? 0x7fffffff) then
      msgpack_pack_real_int32 host msgpack_pack_append_buffer x d
    else
      msgpack_pack_real_int64 host msgpack_pack_append_buffer x d
  else
    if sizeof (size_short tgt) =? 2 then
      msgpack_pack_real_int16 host msgpack_pack_append_buffer x d
    else if sizeof (size_short tgt) =? 4 then
      msgpack_pack_real_int32 host msgpack_pack_append_buffer x d
    else
      msgpack_pack_real_int64 host msgpack_pack_append_buffer x d.

Definition msgpack_pack_int (x : msgpack_pack_user) (d : Z) : result :=
  let SIZEOF_INT := macro_value (defined_SIZEOF_INT tgt) (sizeof (size_int tgt)) in
  let INT_MAX := macro_value (defined_INT_MAX tgt) (signed_max (size_int tgt)) in
  if defined_SIZEOF_INT tgt || defined_INT_MAX tgt then
    if (SIZEOF_INT =? 2) || (INT_MAX =? 0x7fff) then
      msgpack_pack_real_int16 host msgpack_pack_append_buffer x d
    else if (SIZEOF_INT =? 4) || (INT_MAX =? 0x7fffffff) then
      msgpack_pack_real_int32 host msgpack_pack_append_buffer x d
    else
      msgpack_pack_real_int64 host msgpack_pack_append_buffer x d
  else
    if sizeof (size_int tgt) =? 2 then
      msgpack_pack_real_int16 host msgpack_pack_append_buffer x d
    else if sizeof (size_int tgt) =? 4 then
      msgpack_pack_real_int32 host msgpack_pack_append_buffer x d
    else
      msgpack_pack_real_int64 host msgpack_pack_append_buffer x d.

Definition msgpack_pack_long (x : msgpack_pack_user) (d : Z) : result :=
  let SIZEOF_LONG := macro_value (defined_SIZEOF_LONG tgt) (sizeof (size_long tgt)) in
  let LONG_MAX := macro_value (defined_LONG_MAX tgt) (signed_max (size_long tgt)) in
  if defined_SIZEOF_LONG tgt || defined_LONG_MAX tgt then
    if (SIZEOF_LONG =? 2) || (LONG_MAX =? 0x7fff) then
      msgpack_pack_real_int16 host msgpack_pack_append_buffer x d
    else if (SIZEOF_LONG =? 4) || (LONG_MAX =? 0x7fffffff) then
      msgpack_pack_real_int32 host msgpack_pack_append_buffer x d
    else
      msgpack_pack_real_int64 host msgpack_pack_append_buffer x d
  else
    if sizeof (size_long tgt) =? 2 then
      msgpack_pack_real_int16 host msgpack_pack_append_buffer x d
    else if sizeof (size_long tgt) =? 4 then
      msgpack_pack_real_int32 host msgpack_pack_append_buffer x d
    else
      msgpack_pack_real_int64 host msgpack_pack_append_buffer x d.

Definition msgpack_pack_long_long (x : msgpack_pack_user) (d : Z) : result :=
  let SIZEOF_LONG_LONG :=
    macro_value (defined_SIZEOF_LONG_LONG tgt) (sizeof (size_long_long tgt)) in
  let LLONG_MAX := macro_value (defined_LLONG_MAX tgt) (signed_max (size_long_long tgt)) in
  if defined_SIZEOF_LONG_LONG tgt || defined_LLONG_MAX tgt then
    if (SIZEOF_LONG_LONG =? 2) || (LLONG_MAX =? 0x7fff) then
      msgpack_pack_real_int16 host msgpack_pack_append_buffer x d
    else if (SIZEOF_LONG_LONG =? 4) || (LLONG_MAX =? 0x7fffffff) then
      msgpack_pack_real_int32 host msgpack_pack_append_buffer x d
    else
      msgpack_pack_real_int64 host msgpack_pack_append_buffer x d
  else
    if sizeof (size_long_long tgt) =? 2 then
      msgpack_pack_real_int16 host msgpack_pack_append_buffer x d
    else if sizeof (size_long_long tgt) =? 4 then
      msgpack_pack_real_int32 host msgpack_pack_append_buffer x d
    else
      msgpack_pack_real_int64 host msgpack_pack_append_buffer x d.

(** *** Unsigned *)

Definition msgpack_pack_unsigned_short (x : msgpack_pack_user) (d : Z) : result :=
  let SIZEOF_SHORT := macro_value (defined_SIZEOF_SHORT tgt) (sizeof (size_short tgt)) in
  let USHRT_MAX := macro_value (defined_USHRT_MAX tgt) (unsigned_max (size_short tgt)) in
  if defined_SIZEOF_SHORT tgt || defined_USHRT_MAX tgt then
    if (SIZEOF_SHORT =? 2) || (USHRT_MAX =? 0xffff) then
      msgpack_pack_real_uint16 host msgpack_pack_append_buffer x d
    else if (SIZEOF_SHORT =? 4) || (USHRT_MAX =? 0xffffffff) then
      msgpack_pack_real_uint32 host msgpack_pack_append_buffer x d
    else
      msgpack_pack_real_uint64 host msgpack_pack_append_buffer x d
  else
    if sizeof (size_short tgt) =? 2 then
      msgpack_pack_real_uint16 host msgpack_pack_append_buffer x d
    else if sizeof (size_short tgt) =? 4 then
      msgpack_pack_real_uint32 host msgpack_pack_append_buffer x d
    else
      msgpack_pack_real_uint64 host msgpack_pack_append_buffer x d.

Definition msgpack_pack_unsigned_int (x : msgpack_pack_user) (d : Z) : result :=
  let SIZEOF_INT := macro_value (defined_SIZEOF_INT tgt) (sizeof (size_int tgt)) in
  let UINT_MAX := macro_value (defined_UINT_MAX tgt) (unsigned_max (size_int tgt)) in
  if defined_SIZEOF_INT tgt || defined_UINT_MAX tgt then
    if (SIZEOF_INT =? 2) || (UINT_MAX =? 0xffff) then
      msgpack_pack_real_uint16 host msgpack_pack_append_buffer x d
    else if (SIZEOF_INT =? 4) || (UINT_MAX =? 0xffffffff) then
      msgpack_pack_real_uint32 host msgpack_pack_append_buffer x d
    else
      msgpack_pack_real_uint64 host msgpack_pack_append_buffer x d
  else
    if sizeof (size_int tgt) =? 2 then
      msgpack_pack_real_uint16 host msgpack_pack_append_buffer x d
    else if sizeof (size_int tgt) =? 4 then
      msgpack_pack_real_uint32 host msgpack_pack_append_buffer x d
    else
      msgpack_pack_real_uint64 host msgpack_pack_append_buffer x d.

(** The [sizeof] path tests [sizeof(unsigned int)], and [d] is an
    [unsigned long]. *)
Definition msgpack_pack_unsigned_long (x : msgpack_pack_user) (d : Z) : result :=
  let SIZEOF_LONG := macro_value (defined_SIZEOF_LONG tgt) (sizeof (size_long tgt)) in
  let ULONG_MAX := macro_value (defined_ULONG_MAX tgt) (unsigned_max (size_long tgt)) in
  if defined_SIZEOF_LONG tgt || defined_ULONG_MAX tgt then
    if (SIZEOF_LONG =? 2) || (ULONG_MAX =? 0xffff) then
      msgpack_pack_real_uint16 host msgpack_pack_append_buffer x d
    else if (SIZEOF_LONG =? 4) || (ULONG_MAX =? 0xffffffff) then
      msgpack_pack_real_uint32 host msgpack_pack_append_buffer x d
    else
      msgpack_pack_real_uint64 host msgpack_pack_append_buffer x d
  else
    if sizeof (size_int tgt) =? 2 then
      msgpack_pack_real_uint16_in host msgpack_pack_append_buffer
        (sizeof_nat (size_long tgt)) x d
    else if sizeof (size_int tgt) =? 4 then
      msgpack_pack_real_uint32_in host msgpack_pack_append_buffer
        (sizeof_nat (size_long tgt)) x d
    else
      msgpack_pack_real_uint64_in host msgpack_pack_append_buffer
        (sizeof_nat (size_long tgt)) x d.

Definition msgpack_pack_unsigned_long_long (x : msgpack_pack_user) (d : Z) : result :=
  let SIZEOF_LONG_LONG :=
    macro_value (defined_SIZEOF_LONG_LONG tgt) (sizeof (size_long_long tgt)) in
  let ULLONG_MAX :=
    macro_value (defined_ULLONG_MAX tgt) (unsigned_max (size_long_long tgt)) in
  if defined_SIZEOF_LONG_LONG tgt || defined_ULLONG_MAX tgt then
    if (SIZEOF_LONG_LONG =? 2) || (ULLONG_MAX =? 0xffff) then
      msgpack_pack_real_uint16 host msgpack_pack_append_buffer x d
    else if (SIZEOF_LONG_LONG =? 4) || (ULLONG_MAX =? 0xffffffff) then
      msgpack_pack_real_uint32 host msgpack_pack_append_buffer x d
    else
      msgpack_pack_real_uint64 host msgpack_pack_append_buffer x d
  else
    if sizeof (size_long_long tgt) =? 2 then
      msgpack_pack_real_uint16 host msgpack_pack_append_buffer x d
    else if sizeof (size_long_long tgt) =? 4 then
      msgpack_pack_real_uint32 host msgpack_pack_append_buffer x d
    else
      msgpack_pack_real_uint64 host msgpack_pack_append_buffer x d.

End native_routines.

Arguments msgpack_pack_short host tgt {msgpack_pack_user result} _ _ _.
Arguments msgpack_pack_int host tgt {msgpack_pack_user result} _ _ _.
Arguments msgpack_pack_long host tgt {msgpack_pack_user result} _ _ _.
Arguments msgpack_pack_long_long host tgt {msgpack_pack_user result} _ _ _.
Arguments msgpack_pack_unsigned_short host tgt {msgpack_pack_user result} _ _ _.
Arguments msgpack_pack_unsigned_int host tgt {msgpack_pack_user result} _ _ _.
Arguments msgpack_pack_unsigned_long host tgt {msgpack_pack_user result} _ _ _.
Arguments msgpack_pack_unsigned_long_long host tgt {msgpack_pack_user result} _ _ _.

End NativeTypes.

(** ** Operations by source width, kinds of values, and a reader *)

(** The unsigned encode operation for a source width of [w] bits. *)
Definition op_uint (w : Z) (d : Z) : pack_op :=
  if w =? 8 then op_uint8 d
  else if w =? 16 then op_uint16 d
  else if w =? 32 then op_uint32 d
  else op_uint64 d.

(** The fixed-width operations for a source width of [w] bits. *)
Definition op_fix_uint (w : Z) (d : Z) : pack_op :=
  if w =? 8 then op_fix_uint8 d
  else if w =? 16 then op_fix_uint16 d
  else if w =? 32 then op_fix_uint32 d
  else op_fix_uint64 d.

Definition op_fix_int (w : Z) (d : Z) : pack_op :=
  if w =? 8 then op_fix_int8 d
  else if w =? 16 then op_fix_int16 d
  else if w =? 32 then op_fix_int32 d
  else op_fix_int64 d.

(** What an operation encodes; the raw body has no tag and no kind. *)
Inductive value_kind : Type :=
| KInteger | KFloat | KDouble | KNil | KTrue | KFalse | KArray | KMap | KRaw.

Definition kind_of (o : pack_op) : option value_kind :=
  match o with
  | op_uint8 _ | op_uint16 _ | op_uint32 _ | op_uint64 _
  | op_int8 _ | op_int16 _ | op_int32 _ | op_int64 _
  | op_fix_uint8 _ | op_fix_uint16 _ | op_fix_uint32 _ | op_fix_uint64 _
  | op_fix_int8 _ | op_fix_int16 _ | op_fix_int32 _ | op_fix_int64 _ => Some KInteger
  | op_float _ => Some KFloat
  | op_double _ => Some KDouble
  | op_nil => Some KNil
  | op_true => Some KTrue
  | op_false => Some KFalse
  | op_array _ => Some KArray
  | op_map _ => Some KMap
  | op_raw _ => Some KRaw
  | op_raw_body _ _ => None
  end.

Module Reader.

(** The kind a first byte announces. *)
Definition tag_kind (tag : Z) : value_kind :=
  if tag <? 0x80 then KInteger
  else if tag <? 0x90 then KMap
  else if tag <? 0xa0 then KArray
  else if tag <? 0xc0 then KRaw
  else if tag =? 0xc0 then KNil
  else if tag =? 0xc2 then KFalse
  else if tag =? 0xc3 then KTrue
  else if tag =? 0xca then KFloat
  else if tag =? 0xcb then KDouble
  else if tag <? 0xda then KInteger
  else if tag <? 0xdc then KRaw
  else if tag <? 0xde then KArray
  else if tag <? 0xe0 then KMap
  else KInteger.

(** The number of bytes a first byte announces, itself included. *)
Definition tag_length (tag : Z) : nat :=
  if (tag =? 0xcc) || (tag =? 0xd0) then 2
  else if (tag =? 0xcd) || (tag =? 0xd1) || (tag =? 0xda) || (tag =? 0xdc) || (tag =? 0xde)
    then 3
  else if (tag =? 0xce) || (tag =? 0xd2) || (tag =? 0xca)
          || (tag =? 0xdb) || (tag =? 0xdd) || (tag =? 0xdf) then 5
  else if (tag =? 0xcf) || (tag =? 0xd3) || (tag =? 0xcb) then 9
  else 1.

(** The integer an integer encoding stands for: a fixnum is its own byte,
    read as two's complement from [0xe0] on; an unsigned form is its payload
    in network order; a signed form is that payload read as two's
    complement. *)
Definition read_int (bytes : list Z) : Z :=
  match bytes with
  | [] => 0
  | tag :: payload =>
      if tag <? 0x80 then tag
      else if 0xe0 <=? tag then tag - 256
      else if (0xd0 <=? tag) && (tag <=? 0xd3) then
        let u := be_value payload in
        let m := 2 ^ (8 * Z.of_nat (length payload)) in
        if 2 * u <? m then u else u - m
      else be_value payload
  end.

End Reader.

(** ** Arguments, a recording sink, and the complete encodings *)

(** What an operation is given to encode: the integer, the bit pattern, the
    count or the length (nothing for nil, the booleans and the raw body). *)
Definition op_argument (o : pack_op) : Z :=
  match o with
  | op_uint8 d | op_uint16 d | op_uint32 d | op_uint64 d
  | op_int8 d | op_int16 d | op_int32 d | op_int64 d
  | op_fix_uint8 d | op_fix_uint16 d | op_fix_uint32 d | op_fix_uint64 d
  | op_fix_int8 d | op_fix_int16 d | op_fix_int32 d | op_fix_int64 d => d
  | op_float num | op_double num => num
  | op_array n | op_map n => n
  | op_raw l => l
  | op_nil | op_true | op_false | op_raw_body _ _ => 0
  end.

(** A sink that records the calls made to it: one entry for each append
    call, holding the bytes of that call. *)
Definition call_log : Type := list (list Z).

Definition record_call (log : call_log) (buf : list Z) : call_log := log ++ [buf].

(** The complete byte sequence of each value, tag and payload, written from
    the tables of the wire format and not from the routines. *)
Module Complete.

Definition unsigned_bytes (v : Z) : list Z :=
  if v <? 2 ^ 7 then [v]
  else if v <? 2 ^ 8 then [0xcc; v]
  else if v <? 2 ^ 16 then 0xcd :: be_bytes 2 v
  else if v <? 2 ^ 32 then 0xce :: be_bytes 4 v
  else 0xcf :: be_bytes 8 v.

Definition signed_bytes (v : Z) : list Z :=
  if v <? - 2 ^ 31 then 0xd3 :: be_bytes 8 v
  else if v <? - 2 ^ 15 then 0xd2 :: be_bytes 4 v
  else if v <? - 2 ^ 7 then 0xd1 :: be_bytes 2 v
  else if v <? - 2 ^ 5 then [0xd0; v + 256]
  else if v <? 0 then [v + 256]
  else unsigned_bytes v.

(** A header: the count in the low bits of the short tag below [limit], in
    16 bits below 65536, else in 32 bits (the low 32 bits of the count). *)
Definition header_bytes (short_tag limit tag16 tag32 : Z) (n : Z) : list Z :=
  if n <? limit then [Z.lor short_tag n]
  else if n <? 65536 then tag16 :: be_bytes 2 n
  else tag32 :: be_bytes 4 (n mod 2 ^ 32).

Definition complete_bytes (o : pack_op) : list Z :=
  match o with
  | op_uint8 d | op_uint16 d | op_uint32 d | op_uint64 d => unsigned_bytes d
  | op_int8 d | op_int16 d | op_int32 d | op_int64 d => signed_bytes d
  | op_fix_uint8 d => 0xcc :: be_bytes 1 d
  | op_fix_uint16 d => 0xcd :: be_bytes 2 d
  | op_fix_uint32 d => 0xce :: be_bytes 4 d
  | op_fix_uint64 d => 0xcf :: be_bytes 8 d
  | op_fix_int8 d => 0xd0 :: be_bytes 1 d
  | op_fix_int16 d => 0xd1 :: be_bytes 2 d
  | op_fix_int32 d => 0xd2 :: be_bytes 4 d
  | op_fix_int64 d => 0xd3 :: be_bytes 8 d
  | op_float num => 0xca :: be_bytes 4 num
  | op_double num => 0xcb :: be_bytes 8 num
  | op_nil => [0xc0]
  | op_true => [0xc3]
  | op_false => [0xc2]
  | op_array n => header_bytes 0x90 16 0xdc 0xdd n
  | op_map n => header_bytes 0x80 16 0xde 0xdf n
  | op_raw l => header_bytes 0xa0 32 0xda 0xdb l
  | op_raw_body b l => firstn (Z.to_nat l) b
  end.

End Complete.

(** * Properties *)

(** ** Object representations *)

Section Bytes.

Lemma le_bytes_length n x : length (le_bytes n x) = n.
Proof. revert x; induction n; intros; simpl; auto. Qed.

Lemma be_bytes_length n x : length (be_bytes n x) = n.
Proof. unfold be_bytes. now rewrite length_rev, le_bytes_length. Qed.

Lemma le_bytes_is_byte n x : Forall is_byte (le_bytes n x).
Proof.
  revert x; induction n; intros; simpl; constructor; auto.
  unfold is_byte. apply Z.mod_pos_bound. lia.
Qed.

(** Only the [8 * n] low-order bits of [x] reach its [n]-byte image. *)
Lemma le_bytes_mod n x : le_bytes n (x mod 2 ^ (8 * Z.of_nat n)) = le_bytes n x.
Proof.
  revert x; induction n; intros x; [reflexivity|].
  cbn [le_bytes].
  replace (2 ^ (8 * Z.of_nat (S n))) with (256 * 2 ^ (8 * Z.of_nat n)).
  2:{ rewrite Nat2Z.inj_succ, <- Z.add_1_r, Z.mul_add_distr_l, Z.pow_add_r by lia.
      change (2 ^ (8 * 1)) with 256. lia. }
  assert (Hp : 0 < 2 ^ (8 * Z.of_nat n)) by (apply Z.pow_pos_nonneg; lia).
  rewrite Z.rem_mul_r by lia.
  assert (Ha : 0 <= x mod 256 < 256) by (apply Z.mod_pos_bound; lia).
  set (a := x mod 256) in *. set (b := (x / 256) mod 2 ^ (8 * Z.of_nat n)).
  replace (a + 256 * b) with (a + b * 256) by lia.
  rewrite Z.mod_add, Z.div_add by lia.
  rewrite Z.mod_small, Z.div_small by lia.
  f_equal. apply IHn.
Qed.

Lemma le_bytes_le_value l : Forall is_byte l -> le_bytes (length l) (le_value l) = l.
Proof.
  induction 1 as [|b t Hb Ht IH]; [reflexivity|].
  cbn [length le_bytes le_value]. unfold is_byte in Hb.
  replace (b + 256 * le_value t) with (b + le_value t * 256) by lia.
  rewrite Z.mod_add, Z.div_add by lia.
  rewrite Z.mod_small, Z.div_small by lia.
  f_equal. exact IH.
Qed.

Lemma byte_at_div i x : 0 <= i -> byte_at i x = (x / 2 ^ (8 * i)) mod 256.
Proof.
  intros Hi. unfold byte_at.
  change 255 with (Z.ones 8).
  rewrite Z.land_ones, Z.shiftr_div_pow2 by lia. reflexivity.
Qed.

Lemma nth_le_bytes n : forall i x, (i < n)%nat ->
  nth i (le_bytes n x) 0 = byte_at (Z.of_nat i) x.
Proof.
  induction n; intros i x Hi; [lia|].
  destruct i as [|i]; cbn [le_bytes nth].
  - rewrite byte_at_div by lia. now rewrite Z.div_1_r.
  - rewrite IHn by lia. rewrite !byte_at_div by lia.
    rewrite Z.div_div by (try apply Z.pow_pos_nonneg; lia).
    do 2 f_equal.
    replace (8 * Z.of_nat (S i)) with (8 + 8 * Z.of_nat i) by lia.
    rewrite Z.pow_add_r by lia. reflexivity.
Qed.

Lemma nth_be_bytes n i x : (i < n)%nat ->
  nth i (be_bytes n x) 0 = byte_at (Z.of_nat (n - 1 - i)) x.
Proof.
  intros Hi. unfold be_bytes.
  rewrite rev_nth by (rewrite le_bytes_length; exact Hi).
  rewrite le_bytes_length, nth_le_bytes by lia.
  do 2 f_equal. lia.
Qed.

End Bytes.

(** ** Byte-order conversion (sysdep.h) *)

Section ByteOrder.

Lemma be_bytes_mod n x : be_bytes n (x mod 2 ^ (8 * Z.of_nat n)) = be_bytes n x.
Proof. unfold be_bytes. now rewrite le_bytes_mod. Qed.

Lemma le_bytes_be_value l :
  Forall is_byte l -> le_bytes (length l) (be_value l) = rev l.
Proof.
  intros Hl. unfold be_value.
  rewrite <- (length_rev l). apply le_bytes_le_value, Forall_rev, Hl.
Qed.

(** Reading an object in network order and storing the result back in
    little-endian order leaves the bytes of the object reversed. *)
Lemma le_bytes_network_order n d :
  le_bytes n (be_value (le_bytes n d)) = be_bytes n d.
Proof.
  rewrite <- (le_bytes_length n d) at 1.
  apply le_bytes_be_value, le_bytes_is_byte.
Qed.

Lemma byte_at_lor i a b :
  byte_at i (Z.lor a b) = Z.lor (byte_at i a) (byte_at i b).
Proof. unfold byte_at. rewrite Z.shiftr_lor. apply Z.land_lor_distr_l. Qed.

Lemma byte_at_mask i j y : 0 <= i -> 0 <= j ->
  byte_at i (Z.land y (Z.shiftl 255 (8 * j))) = if i =? j then byte_at j y else 0.
Proof.
  intros Hi Hj. unfold byte_at. change 255 with (Z.ones 8).
  destruct (Z.eqb_spec i j) as [->|Hne]; Z.bitblast.
Qed.

Lemma byte_at_shl64 j k x : 0 <= k <= j -> j < 8 ->
  byte_at j (shl64 x (8 * k)) = byte_at (j - k) (x mod 2 ^ 64).
Proof.
  intros Hk Hj. unfold byte_at, shl64. change 255 with (Z.ones 8). Z.bitblast.
Qed.

Lemma byte_at_shr64 j k x : 0 <= k -> 0 <= j ->
  byte_at j (shr64 x (8 * k)) = byte_at (j + k) (x mod 2 ^ 64).
Proof.
  intros Hk Hj. unfold byte_at, shr64. change 255 with (Z.ones 8). Z.bitblast.
Qed.

(** The eight terms of the macro, each mask written as a shifted byte. *)
Lemma byteswap64_terms x :
  byteswap64 x =
    Z.lor (Z.land (shl64 x (8 * 7)) (Z.shiftl 255 (8 * 7)))
   (Z.lor (Z.land (shl64 x (8 * 5)) (Z.shiftl 255 (8 * 6)))
   (Z.lor (Z.land (shl64 x (8 * 3)) (Z.shiftl 255 (8 * 5)))
   (Z.lor (Z.land (shl64 x (8 * 1)) (Z.shiftl 255 (8 * 4)))
   (Z.lor (Z.land (shr64 x (8 * 1)) (Z.shiftl 255 (8 * 3)))
   (Z.lor (Z.land (shr64 x (8 * 3)) (Z.shiftl 255 (8 * 2)))
   (Z.lor (Z.land (shr64 x (8 * 5)) (Z.shiftl 255 (8 * 1)))
          (Z.land (shr64 x (8 * 7)) (Z.shiftl 255 (8 * 0))))))))).
Proof. reflexivity. Qed.

Lemma byte_at_byteswap64 i x : 0 <= i < 8 ->
  byte_at i (byteswap64 x) = byte_at (7 - i) (x mod 2 ^ 64).
Proof.
  intros Hi. rewrite byteswap64_terms.
  rewrite !byte_at_lor, !byte_at_mask by lia.
  assert (Hc : i = 0 \/ i = 1 \/ i = 2 \/ i = 3 \/ i = 4 \/ i = 5 \/ i = 6 \/ i = 7)
    by lia.
  destruct Hc as [->|[->|[->|[->|[->|[->|[->| ->]]]]]]];
    cbn [Z.eqb Pos.eqb]; rewrite ?Z.lor_0_r, ?Z.lor_0_l;
    first [ rewrite byte_at_shl64 by lia | rewrite byte_at_shr64 by lia ];
    reflexivity.
Qed.

Lemma le_bytes_byteswap64 x : le_bytes 8 (byteswap64 x) = be_bytes 8 x.
Proof.
  rewrite <- (be_bytes_mod 8 x). change (2 ^ (8 * Z.of_nat 8)) with (2 ^ 64).
  apply nth_ext with (d := 0) (d' := 0).
  - now rewrite le_bytes_length, be_bytes_length.
  - intros i Hi. rewrite le_bytes_length in Hi.
    rewrite nth_le_bytes, nth_be_bytes by assumption.
    rewrite byte_at_byteswap64 by lia. f_equal. lia.
Qed.

(** What [*(uintN_t* )&buf[1] = _msgpack_beN(d)] leaves in the buffer, on
    either host: the low-order bytes of [d], most significant first. *)
Lemma store_uint16_be16 host d : store_uint16 host (_msgpack_be16 host d) = be_bytes 2 d.
Proof.
  unfold store_uint16, _msgpack_be16, ntohs.
  change (2 ^ 16) with (2 ^ (8 * Z.of_nat 2)).
  destruct host; cbn [object_bytes].
  - now rewrite !le_bytes_mod, le_bytes_network_order.
  - apply be_bytes_mod.
Qed.

Lemma store_uint32_be32 host d : store_uint32 host (_msgpack_be32 host d) = be_bytes 4 d.
Proof.
  unfold store_uint32, _msgpack_be32, ntohl.
  change (2 ^ 32) with (2 ^ (8 * Z.of_nat 4)).
  destruct host; cbn [object_bytes].
  - now rewrite !le_bytes_mod, le_bytes_network_order.
  - apply be_bytes_mod.
Qed.

Lemma store_uint64_be64 host d : store_uint64 host (_msgpack_be64 host d) = be_bytes 8 d.
Proof.
  unfold store_uint64, _msgpack_be64.
  change (2 ^ 64) with (2 ^ (8 * Z.of_nat 8)).
  destruct host; cbn [object_bytes].
  - rewrite le_bytes_mod. apply le_bytes_byteswap64.
  - apply be_bytes_mod.
Qed.

(** [TAKE8_n(d)] is the low-order byte of [d] on either host. *)
Lemma TAKE8_8_low host d : TAKE8_8 host d = d mod 256.
Proof. destruct host; reflexivity. Qed.

Lemma TAKE8_16_low host d : TAKE8_16 host d = d mod 256.
Proof. destruct host; reflexivity. Qed.

Lemma TAKE8_32_low host d : TAKE8_32 host d = d mod 256.
Proof. destruct host; reflexivity. Qed.

Lemma TAKE8_64_low host d : TAKE8_64 host d = d mod 256.
Proof. destruct host; reflexivity. Qed.

End ByteOrder.

Create Rewrite HintDb pack.
#[local] Hint Rewrite TAKE8_8_low TAKE8_16_low TAKE8_32_low TAKE8_64_low
  store_uint16_be16 store_uint32_be32 store_uint64_be64 : pack.

(** Unfold a routine down to its comparisons and its append call, with the
    emitted bytes in host-independent form. *)
Ltac unfold_pack :=
  cbv [encoding run_op
       msgpack_pack_uint8 msgpack_pack_uint16 msgpack_pack_uint32 msgpack_pack_uint64
       msgpack_pack_int8 msgpack_pack_int16 msgpack_pack_int32 msgpack_pack_int64
       msgpack_pack_real_uint8 msgpack_pack_real_uint16
       msgpack_pack_real_uint32 msgpack_pack_real_uint64
       msgpack_pack_real_int8 msgpack_pack_real_int16
       msgpack_pack_real_int32 msgpack_pack_real_int64
       fastint_uint8 fastint_uint16 fastint_uint32 fastint_uint64
       fastint_int8 fastint_int16 fastint_int32 fastint_int64
       msgpack_pack_float msgpack_pack_double
       msgpack_pack_nil msgpack_pack_true msgpack_pack_false
       msgpack_pack_array msgpack_pack_map msgpack_pack_raw msgpack_pack_raw_body];
  autorewrite with pack;
  change (Z.shiftl 1 5) with 32; change (Z.shiftl 1 7) with 128;
  change (Z.shiftl 1 8) with 256; change (Z.shiftl 1 15) with 32768;
  change (Z.shiftl 1 16) with 65536; change (Z.shiftl 1 31) with 2147483648;
  change (Z.shiftl 1 32) with 4294967296.

(** Split on every comparison of the goal, keeping the facts. *)
Ltac split_ltb :=
  repeat match goal with
         | |- context [?a <? ?b] => destruct (Z.ltb_spec a b)
         end.

Section Routines.

Context {user result : Type} (append : user -> list Z -> result).

(** Every routine is one append of the bytes it would leave in an empty
    growable buffer. *)
Lemma run_op_encoding host (x : user) o :
  run_op host append x o = append x (encoding host o).
Proof.
  destruct o; cbv [encoding run_op
     msgpack_pack_uint8 msgpack_pack_uint16 msgpack_pack_uint32 msgpack_pack_uint64
     msgpack_pack_int8 msgpack_pack_int16 msgpack_pack_int32 msgpack_pack_int64
     msgpack_pack_real_uint8 msgpack_pack_real_uint16
     msgpack_pack_real_uint32 msgpack_pack_real_uint64
     msgpack_pack_real_int8 msgpack_pack_real_int16
     msgpack_pack_real_int32 msgpack_pack_real_int64
     fastint_uint8 fastint_uint16 fastint_uint32 fastint_uint64
     fastint_int8 fastint_int16 fastint_int32 fastint_int64
     msgpack_pack_float msgpack_pack_double
     msgpack_pack_nil msgpack_pack_true msgpack_pack_false
     msgpack_pack_array msgpack_pack_map msgpack_pack_raw msgpack_pack_raw_body
     buffer_append];
    repeat match goal with
           | |- context [if ?c then _ else _] => destruct c
           end; reflexivity.
Qed.

End Routines.

(** ** Integer encodings *)

Section Integers.

Lemma be_bytes_1 v : be_bytes 1 v = [v mod 256].
Proof. reflexivity. Qed.

(** The byte of a fixnum: the value itself, or its two's complement. *)
Lemma fixnum_byte d : - 32 <= d < 128 ->
  d mod 256 = if d <? 0 then d + 256 else d.
Proof.
  intros Hd. destruct (Z.ltb_spec d 0).
  - replace d with (d + 256 + (-1) * 256) at 1 by lia.
    rewrite Z.mod_add by lia. apply Z.mod_small. lia.
  - apply Z.mod_small. lia.
Qed.

End Integers.

(** Settle [Wire.narrowest f v] for a given form and a value known by its
    bounds. *)
Ltac narrowest_form f :=
  exists f; split;
  [ split;
    [ cbv [Wire.in_range Wire.form_lo Wire.form_hi]; lia
    | intros g Hg; destruct g;
      cbv [Wire.in_range Wire.form_lo Wire.form_hi] in Hg;
      cbv [Wire.form_size Wire.form_payload]; lia ]
  | ].

(** C1.  Minimality of integer encodings.  For every unsigned 64-bit value
    [u] the unsigned encode operation appends exactly: the byte [u] itself
    when [u < 2^7]; [0xcc] and one byte when [u < 2^8]; [0xcd] and two
    big-endian bytes when [u < 2^16]; [0xce] and four when [u < 2^32]; [0xcf]
    and eight otherwise; this is a narrowest form whose range contains [u].
    For every signed 64-bit value [v] the signed encode operation appends the
    encoding of [v] in a narrowest form whose range contains [v], among the
    fixnums and the 8/16/32/64-bit signed and unsigned forms. *)
Theorem integer_encoding_minimal :
  forall (host : byte_order) (user result : Type)
         (append : user -> list Z -> result) (x : user) (u v : Z),
    0 <= u < 2 ^ 64 ->
    - 2 ^ 63 <= v < 2 ^ 63 ->
    (msgpack_pack_uint64 host append x u =
       append x (if u <? 2 ^ 7 then [u]
                 else if u <? 2 ^ 8 then [0xcc; u]
                 else if u <? 2 ^ 16 then 0xcd :: be_bytes 2 u
                 else if u <? 2 ^ 32 then 0xce :: be_bytes 4 u
                 else 0xcf :: be_bytes 8 u)
     /\ exists f, Wire.narrowest f u /\
          msgpack_pack_uint64 host append x u = append x (Wire.form_encode f u))
    /\ exists f, Wire.narrowest f v /\
         msgpack_pack_int64 host append x v = append x (Wire.form_encode f v).
Proof.
  intros host user result append x u v Hu Hv.
  cbv [Wire.form_encode].
  change (2 ^ 7) with 128; change (2 ^ 8) with 256; change (2 ^ 16) with 65536;
    change (2 ^ 32) with 4294967296.
  repeat split.
  - unfold_pack. split_ltb; try lia; try reflexivity;
      rewrite Z.mod_small by lia; reflexivity.
  - unfold_pack. split_ltb; try lia.
    + narrowest_form Wire.PosFixnum. reflexivity.
    + narrowest_form Wire.Uint8. reflexivity.
    + narrowest_form Wire.Uint16. reflexivity.
    + narrowest_form Wire.Uint32. reflexivity.
    + narrowest_form Wire.Uint64. reflexivity.
  - unfold_pack. split_ltb; try lia.
    + narrowest_form Wire.Int64. reflexivity.
    + narrowest_form Wire.Int32. reflexivity.
    + narrowest_form Wire.Int16. reflexivity.
    + narrowest_form Wire.Int8. reflexivity.
    + destruct (Z.ltb_spec v 0).
      * narrowest_form Wire.NegFixnum. reflexivity.
      * narrowest_form Wire.PosFixnum. reflexivity.
    + narrowest_form Wire.Uint8. reflexivity.
    + narrowest_form Wire.Uint16. reflexivity.
    + narrowest_form Wire.Uint32. reflexivity.
    + narrowest_form Wire.Uint64. reflexivity.
Qed.

Lemma integer_encoding_minimal_witness :
  0 <= 300 < 2 ^ 64 /\ - 2 ^ 63 <= -200 < 2 ^ 63 /\
  msgpack_pack_uint64 LittleEndian buffer_append [] 300 = [0xcd; 0x01; 0x2c].
Proof.
  split; [lia|]. split; [lia|].
  exact (proj1 (proj1 (integer_encoding_minimal LittleEndian buffer buffer
                         buffer_append [] 300 (-200)
                         ltac:(lia) ltac:(lia)))).
Defined.

(** C2, as amended.  For every signed value [a] with [-2^7 <= a < -2^5] the
    signed encode operation (at every source width) appends the 8-bit signed
    form, tag [0xd0] and a 1-byte payload; for every signed value [b] with
    [-2^15 <= b < -2^7] it appends (at the 16-, 32- and 64-bit source
    widths) the 16-bit signed form, tag [0xd1] and a 2-byte big-endian
    payload. *)
Theorem signed_8_and_16_bit_tiers :
  forall (host : byte_order) (user result : Type)
         (append : user -> list Z -> result) (x : user) (a b : Z),
    - 2 ^ 7 <= a < - 2 ^ 5 ->
    - 2 ^ 15 <= b < - 2 ^ 7 ->
    (msgpack_pack_int8 host append x a = append x (0xd0 :: be_bytes 1 a) /\
     msgpack_pack_int16 host append x a = append x (0xd0 :: be_bytes 1 a) /\
     msgpack_pack_int32 host append x a = append x (0xd0 :: be_bytes 1 a) /\
     msgpack_pack_int64 host append x a = append x (0xd0 :: be_bytes 1 a))
    /\
    (msgpack_pack_int16 host append x b = append x (0xd1 :: be_bytes 2 b) /\
     msgpack_pack_int32 host append x b = append x (0xd1 :: be_bytes 2 b) /\
     msgpack_pack_int64 host append x b = append x (0xd1 :: be_bytes 2 b)).
Proof.
  intros host user result append x a b Ha Hb.
  repeat split; unfold_pack; split_ltb; try lia; reflexivity.
Qed.

Lemma signed_8_and_16_bit_tiers_witness :
  - 2 ^ 7 <= -100 < - 2 ^ 5 /\ - 2 ^ 15 <= -200 < - 2 ^ 7 /\
  msgpack_pack_int64 BigEndian buffer_append [] (-100) = [0xd0; 0x9c] /\
  msgpack_pack_int64 BigEndian buffer_append [] (-200) = [0xd1; 0xff; 0x38].
Proof.
  split; [lia|]. split; [lia|].
  pose proof (signed_8_and_16_bit_tiers BigEndian buffer buffer buffer_append []
                (-100) (-200) ltac:(lia) ltac:(lia)) as H.
  split.
  - exact (proj2 (proj2 (proj2 (proj1 H)))).
  - exact (proj2 (proj2 (proj2 H))).
Defined.

(** The claim C2 as first stated fails at [v = -200], which lies in
    [-2^15 <= v < -2^7]: the signed encode operation appends the 16-bit
    signed form [0xd1 0xff 0x38], not tag [0xd0] and one payload byte. *)
Lemma signed_minus_200_is_not_8_bit :
  - 2 ^ 15 <= -200 < - 2 ^ 7 /\
  encoding LittleEndian (op_int16 (-200)) = [0xd1; 0xff; 0x38] /\
  encoding LittleEndian (op_int64 (-200)) = [0xd1; 0xff; 0x38] /\
  ~ (exists p, encoding LittleEndian (op_int64 (-200)) = [0xd0; p]).
Proof.
  split; [lia|]. split; [reflexivity|]. split; [reflexivity|].
  intros [p Hp]. vm_compute in Hp. discriminate Hp.
Qed.

(** C3.  For every non-negative signed value [v], at every signed source
    width [w] (8, 16, 32 or 64 bits), the signed encode operation appends
    either the positive fixnum (the single byte [v], when [v < 2^7]) or a
    complete unsigned form: tag [0xcc], [0xcd], [0xce] or [0xcf] followed by
    the 1, 2, 4 or 8 payload bytes of [v], most significant first, in the
    narrowest of them that holds [v]; its tag is never a signed-int tag
    ([0xd0] to [0xd3]). *)
Theorem nonnegative_signed_uses_unsigned_forms :
  forall (host : byte_order) (user result : Type)
         (append : user -> list Z -> result) (x : user) (w v : Z),
    In w [8; 16; 32; 64] ->
    0 <= v < 2 ^ (w - 1) ->
    run_op host append x (op_int w v) =
      append x (if v <? 2 ^ 7 then [v]
                else if v <? 2 ^ 8 then [0xcc; v]
                else if v <? 2 ^ 16 then 0xcd :: be_bytes 2 v
                else if v <? 2 ^ 32 then 0xce :: be_bytes 4 v
                else 0xcf :: be_bytes 8 v) /\
    exists f,
      In f [Wire.PosFixnum; Wire.Uint8; Wire.Uint16; Wire.Uint32; Wire.Uint64] /\
      Wire.in_range f v /\
      run_op host append x (op_int w v) = append x (Wire.form_encode f v) /\
      ~ (0xd0 <= Wire.form_tag f v <= 0xd3).
Proof.
  intros host user result append x w v Hw Hv.
  change (2 ^ 7) with 128; change (2 ^ 8) with 256; change (2 ^ 16) with 65536;
    change (2 ^ 32) with 4294967296.
  cbn [In] in Hw.
  destruct Hw as [<-|[<-|[<-|[<-|[]]]]];
    match type of Hv with
    | context [2 ^ ?e] =>
        let p := eval vm_compute in (2 ^ e) in change (2 ^ e) with p in Hv
    end;
    unfold op_int; cbn [Z.eqb Pos.eqb]; unfold_pack;
    split_ltb; try lia;
    (split; [rewrite ?Z.mod_small by lia; reflexivity|]);
    [ exists Wire.PosFixnum | exists Wire.PosFixnum | exists Wire.Uint8
    | exists Wire.Uint16
    | exists Wire.PosFixnum | exists Wire.Uint8 | exists Wire.Uint16
    | exists Wire.Uint32
    | exists Wire.PosFixnum | exists Wire.Uint8 | exists Wire.Uint16
    | exists Wire.Uint32 | exists Wire.Uint64 ];
    (split; [cbn [In]; tauto|]);
    (split; [cbv [Wire.in_range Wire.form_lo Wire.form_hi]; lia|]);
    (split; [reflexivity|]);
    cbv [Wire.form_tag]; rewrite ?Z.mod_small by lia; lia.
Qed.

Lemma nonnegative_signed_uses_unsigned_forms_witness :
  In 16 [8; 16; 32; 64] /\ 0 <= 200 < 2 ^ (16 - 1) /\
  run_op LittleEndian buffer_append [] (op_int 16 200) = [0xcc; 200].
Proof.
  split; [cbn; tauto|]. split; [lia|].
  exact (proj1 (nonnegative_signed_uses_unsigned_forms LittleEndian buffer buffer
                  buffer_append [] 16 200 ltac:(cbn; tauto) ltac:(lia))).
Defined.

(** ** Headers *)

Section Headers.

Lemma Z_range_cases k n : 0 <= n < Z.of_nat k -> In n (map Z.of_nat (seq 0 k)).
Proof.
  intros Hn. apply in_map_iff. exists (Z.to_nat n).
  split; [lia | apply in_seq; lia].
Qed.

(** The short-form tags: the count fits below the fixed high bits. *)
Lemma short_array_tag n : 0 <= n < 16 ->
  Z.lor 0x90 n mod 2 ^ 8 = Z.lor 0x90 n /\ Z.lor 0x90 n = 0x90 + n.
Proof.
  intros Hn. apply (Z_range_cases 16) in Hn. cbn in Hn.
  repeat (destruct Hn as [<-|Hn]; [split; reflexivity|]). contradiction.
Qed.

Lemma short_map_tag n : 0 <= n < 16 ->
  Z.lor 0x80 n mod 2 ^ 8 = Z.lor 0x80 n /\ Z.lor 0x80 n = 0x80 + n.
Proof.
  intros Hn. apply (Z_range_cases 16) in Hn. cbn in Hn.
  repeat (destruct Hn as [<-|Hn]; [split; reflexivity|]). contradiction.
Qed.

Lemma short_raw_tag l : 0 <= l < 32 ->
  Z.lor 0xa0 l mod 2 ^ 8 = Z.lor 0xa0 l /\ Z.lor 0xa0 l = 0xa0 + l.
Proof.
  intros Hl. apply (Z_range_cases 32) in Hl. cbn in Hl.
  repeat (destruct Hl as [<-|Hl]; [split; reflexivity|]). contradiction.
Qed.

End Headers.

(** C4, as amended.  The raw header operation performs no range check and
    rejects no length: for every length [l] of the 64-bit size type with
    [l >= 2^16], lengths of [2^32] and more included, it appends in one call
    the five bytes [0xdb] and the 4-byte big-endian encoding of
    [l mod 2^32]. *)
Theorem raw_header_wide_length :
  forall (host : byte_order) (user result : Type)
         (append : user -> list Z -> result) (x : user) (l : Z),
    2 ^ 16 <= l < 2 ^ 64 ->
    msgpack_pack_raw host append x l = append x (0xdb :: be_bytes 4 (l mod 2 ^ 32)).
Proof.
  intros host user result append x l Hl.
  change (2 ^ 16) with 65536 in Hl.
  unfold_pack. split_ltb; try lia.
  change (2 ^ 32) with (2 ^ (8 * Z.of_nat 4)). now rewrite be_bytes_mod.
Qed.

Lemma raw_header_wide_length_witness :
  2 ^ 16 <= 2 ^ 32 + 70000 < 2 ^ 64 /\
  msgpack_pack_raw BigEndian buffer_append [] (2 ^ 32 + 70000)
    = [0xdb; 0x00; 0x01; 0x11; 0x70].
Proof.
  split; [lia|].
  exact (raw_header_wide_length BigEndian buffer buffer buffer_append []
           (2 ^ 32 + 70000) ltac:(lia)).
Defined.

(** The claim C4 as first stated fails at the length [l = 2^32]: the raw
    header operation does append bytes (to a growable buffer, and to a
    bounded one with room for them), and the length field it writes reads 0. *)
Lemma raw_header_2_pow_32_is_not_rejected :
  2 ^ 32 <= 2 ^ 32 < 2 ^ 64 /\
  encoding LittleEndian (op_raw (2 ^ 32)) = [0xdb; 0; 0; 0; 0] /\
  run_op LittleEndian (bounded_append 16) [] (op_raw (2 ^ 32)) = Some [0xdb; 0; 0; 0; 0] /\
  be_value [0; 0; 0; 0] <> 2 ^ 32.
Proof.
  split; [lia|]. split; [reflexivity|]. split; [reflexivity|].
  vm_compute. discriminate.
Qed.

(** C5.  Concrete encodings: unsigned 300 appends exactly [0xcd 0x01 0x2c];
    signed -1 appends exactly [0xff]; signed -100 appends exactly
    [0xd0 0x9c]; nil appends exactly [0xc0]; the array header for count 3 is
    exactly [0x93]; the raw header for length 40 is exactly [0xda 0x00 0x28];
    this on either host, to any sink, and at every source width that holds
    the value. *)
Theorem concrete_encodings :
  forall (host : byte_order) (user result : Type)
         (append : user -> list Z -> result) (x : user),
    (msgpack_pack_uint16 host append x 300 = append x [0xcd; 0x01; 0x2c] /\
     msgpack_pack_uint32 host append x 300 = append x [0xcd; 0x01; 0x2c] /\
     msgpack_pack_uint64 host append x 300 = append x [0xcd; 0x01; 0x2c]) /\
    (msgpack_pack_int8 host append x (-1) = append x [0xff] /\
     msgpack_pack_int16 host append x (-1) = append x [0xff] /\
     msgpack_pack_int32 host append x (-1) = append x [0xff] /\
     msgpack_pack_int64 host append x (-1) = append x [0xff]) /\
    (msgpack_pack_int8 host append x (-100) = append x [0xd0; 0x9c] /\
     msgpack_pack_int16 host append x (-100) = append x [0xd0; 0x9c] /\
     msgpack_pack_int32 host append x (-100) = append x [0xd0; 0x9c] /\
     msgpack_pack_int64 host append x (-100) = append x [0xd0; 0x9c]) /\
    msgpack_pack_nil append x = append x [0xc0] /\
    msgpack_pack_array host append x 3 = append x [0x93] /\
    msgpack_pack_raw host append x 40 = append x [0xda; 0x00; 0x28].
Proof.
  intros host user result append x.
  destruct host; repeat split; reflexivity.
Qed.

(** C6.  Byte-order determinism: on either host, every operation that emits
    a tag appends, after the tag, the big-endian image of its argument in as
    many bytes as the payload has (2, 4 or 8 for the multi-byte payloads);
    so the float and the double and the 16-, 32- and 64-bit integers are
    most significant byte first, and 0x0102 encoded as a 16-bit unsigned
    value is exactly [0xcd 0x01 0x02].  The stores behind it leave the
    big-endian image on either host, and for every 64-bit value [v] the
    64-bit host-to-big-endian conversion is the identity on a big-endian
    host and, on a little-endian host, the reversal of the eight bytes of
    [v]: byte [i] of the result is byte [7 - i] of [v]. *)
Theorem byte_order_determinism :
  forall (host : byte_order) (o : pack_op) (v : Z),
    emits_tag o = true ->
    0 <= v < 2 ^ 64 ->
    (exists tag,
       encoding host o =
         tag :: be_bytes (length (encoding host o) - 1) (op_argument o)) /\
    (encoding host (op_float v) = 0xca :: be_bytes 4 v /\
     encoding host (op_double v) = 0xcb :: be_bytes 8 v /\
     encoding host (op_fix_uint16 v) = 0xcd :: be_bytes 2 v /\
     encoding host (op_fix_uint32 v) = 0xce :: be_bytes 4 v /\
     encoding host (op_fix_uint64 v) = 0xcf :: be_bytes 8 v /\
     encoding host (op_fix_int16 v) = 0xd1 :: be_bytes 2 v /\
     encoding host (op_fix_int32 v) = 0xd2 :: be_bytes 4 v /\
     encoding host (op_fix_int64 v) = 0xd3 :: be_bytes 8 v) /\
    encoding host (op_uint16 0x0102) = [0xcd; 0x01; 0x02] /\
    (store_uint16 host (_msgpack_be16 host v) = be_bytes 2 v /\
     store_uint32 host (_msgpack_be32 host v) = be_bytes 4 v /\
     store_uint64 host (_msgpack_be64 host v) = be_bytes 8 v) /\
    _msgpack_be64 BigEndian v = v /\
    forall i, 0 <= i < 8 ->
      byte_at i (_msgpack_be64 LittleEndian v) = byte_at (7 - i) v.
Proof.
  intros host o v Htag Hv.
  split; [|split; [|split; [|split; [|split]]]].
  - destruct o; try discriminate Htag;
      unfold_pack; cbv [buffer_append app op_argument]; split_ltb;
      eexists; reflexivity.
  - repeat split; unfold_pack; reflexivity.
  - destruct host; reflexivity.
  - repeat split;
      [apply store_uint16_be16 | apply store_uint32_be32 | apply store_uint64_be64].
  - reflexivity.
  - intros i Hi. cbn [_msgpack_be64].
    rewrite byte_at_byteswap64 by assumption.
    now rewrite Z.mod_small by assumption.
Qed.

Lemma byte_order_determinism_witness :
  emits_tag (op_double 0x0102030405060708) = true /\
  0 <= 0x0102030405060708 < 2 ^ 64 /\
  encoding LittleEndian (op_double 0x0102030405060708)
    = [0xcb; 1; 2; 3; 4; 5; 6; 7; 8] /\
  encoding BigEndian (op_double 0x0102030405060708)
    = [0xcb; 1; 2; 3; 4; 5; 6; 7; 8].
Proof.
  split; [reflexivity|]. split; [lia|]. split.
  - exact (proj1 (proj2 (proj1 (proj2
      (byte_order_determinism LittleEndian (op_double 0x0102030405060708)
         0x0102030405060708 eq_refl ltac:(lia)))))).
  - exact (proj1 (proj2 (proj1 (proj2
      (byte_order_determinism BigEndian (op_double 0x0102030405060708)
         0x0102030405060708 eq_refl ltac:(lia)))))).
Defined.

(** C7.  Width refinement: for every value [v] with [0 <= v < 2^16] the
    16-bit and the 64-bit unsigned encode operations append the same bytes,
    and the 16-bit one still picks the fixnum below [2^7] and the 8-bit form
    below [2^8]. *)
Theorem uint16_refines_uint64 :
  forall (host : byte_order) (user result : Type)
         (append : user -> list Z -> result) (x : user) (v : Z),
    0 <= v < 2 ^ 16 ->
    msgpack_pack_uint16 host append x v = msgpack_pack_uint64 host append x v /\
    msgpack_pack_uint16 host append x v =
      append x (if v <? 2 ^ 7 then [v]
                else if v <? 2 ^ 8 then [0xcc; v]
                else 0xcd :: be_bytes 2 v).
Proof.
  intros host user result append x v Hv.
  change (2 ^ 16) with 65536 in Hv.
  change (2 ^ 7) with 128; change (2 ^ 8) with 256.
  split; unfold_pack; split_ltb; try lia; try reflexivity;
    rewrite Z.mod_small by lia; reflexivity.
Qed.

Lemma uint16_refines_uint64_witness :
  0 <= 200 < 2 ^ 16 /\
  msgpack_pack_uint16 LittleEndian buffer_append [] 200
    = msgpack_pack_uint64 LittleEndian buffer_append [] 200.
Proof.
  split; [lia|].
  exact (proj1 (uint16_refines_uint64 LittleEndian buffer buffer buffer_append []
                  200 ltac:(lia))).
Defined.

(** C8.  Container headers: for every count [n] the array header operation
    appends the single byte [0x90 | n] when [n < 16], [0xdc] and the 2-byte
    big-endian [n] when [16 <= n < 65536], [0xdd] and the 4-byte big-endian
    [n] otherwise; the map header operation does the same with [0x80 | n],
    [0xde] and [0xdf].  The count is the only argument besides the sink, so
    the header is the same for any two element sequences of equal length. *)
Theorem container_headers :
  forall (host : byte_order) (user result : Type)
         (append : user -> list Z -> result) (x : user) (n : Z),
    0 <= n < 2 ^ 32 ->
    msgpack_pack_array host append x n =
      append x (if n <? 16 then [Z.lor 0x90 n]
                else if n <? 65536 then 0xdc :: be_bytes 2 n
                else 0xdd :: be_bytes 4 n) /\
    msgpack_pack_map host append x n =
      append x (if n <? 16 then [Z.lor 0x80 n]
                else if n <? 65536 then 0xde :: be_bytes 2 n
                else 0xdf :: be_bytes 4 n) /\
    forall (A : Type) (elements elements' : list A),
      n = Z.of_nat (length elements) ->
      length elements = length elements' ->
      msgpack_pack_array host append x (Z.of_nat (length elements')) =
        msgpack_pack_array host append x n /\
      msgpack_pack_map host append x (Z.of_nat (length elements')) =
        msgpack_pack_map host append x n.
Proof.
  intros host user result append x n Hn. split; [|split].
  - unfold_pack. split_ltb; try reflexivity.
    now rewrite (proj1 (short_array_tag n ltac:(lia))).
  - unfold_pack. split_ltb; try reflexivity.
    rewrite (proj1 (short_map_tag n ltac:(lia))).
    rewrite Z.mod_small; [reflexivity|].
    rewrite (proj2 (short_map_tag n ltac:(lia))). lia.
  - intros A elements elements' Hcount Hlen. subst n.
    now rewrite Hlen.
Qed.

Lemma container_headers_witness :
  0 <= 65536 < 2 ^ 32 /\
  msgpack_pack_array LittleEndian buffer_append [] 65536 = [0xdd; 0; 1; 0; 0] /\
  msgpack_pack_map LittleEndian buffer_append [] 65536 = [0xdf; 0; 1; 0; 0].
Proof.
  split; [lia|].
  pose proof (container_headers LittleEndian buffer buffer buffer_append []
                65536 ltac:(lia)) as H.
  split.
  - exact (proj1 H).
  - exact (proj1 (proj2 H)).
Defined.

(** ** Tags *)

(** Decide a comparison of the goal from the bounds at hand. *)
Ltac decide_tag_tests :=
  repeat match goal with
         | |- context [?a <=? ?b] =>
             first [ rewrite (proj2 (Z.leb_le a b)) by lia
                   | rewrite (proj2 (Z.leb_gt a b)) by lia ]
         | |- context [?a =? ?b] =>
             first [ rewrite (proj2 (Z.eqb_eq a b)) by lia
                   | rewrite (proj2 (Z.eqb_neq a b)) by lia ]
         end.

Section Tags.

Lemma fix_tag_allowed b : 0 <= b <= 0xbf \/ 0xe0 <= b <= 0xff ->
  Wire.reserved_tag b = false /\ Wire.wire_tag b = true.
Proof.
  intros [Hb|Hb];
    cbv [Wire.reserved_tag Wire.wire_tag Wire.listed_tag Wire.negative_fixnum_tag];
    decide_tag_tests; split; reflexivity.
Qed.

Lemma fixnum_tag_allowed d : - 32 <= d < 128 ->
  Wire.reserved_tag (d mod 256) = false /\ Wire.wire_tag (d mod 256) = true.
Proof.
  intros Hd. rewrite fixnum_byte by assumption.
  apply fix_tag_allowed. destruct (Z.ltb_spec d 0); lia.
Qed.

End Tags.

(** C10, as amended.  Reserved tags are never emitted: for every argument of
    every operation that emits a tag (integers of all widths, float, double,
    nil, booleans, array, map and raw headers) the first byte appended is
    none of [0xc1], [0xc4]-[0xc9], [0xd4]-[0xd9]; it lies in [0x00]-[0xbf],
    [0xc0], [0xc2]/[0xc3], [0xca]-[0xcf], [0xd0]-[0xd3], [0xda]-[0xdf] or in
    the negative fixnum range [0xe0]-[0xff]. *)
Theorem reserved_tags_never_emitted :
  forall (host : byte_order) (o : pack_op),
    valid_op o ->
    emits_tag o = true ->
    exists tag payload,
      encoding host o = tag :: payload /\
      Wire.reserved_tag tag = false /\
      Wire.wire_tag tag = true.
Proof.
  intros host o Hvalid Htag.
  destruct o; try discriminate Htag; cbn [valid_op] in Hvalid;
    unfold_pack; cbv [buffer_append app]; split_ltb;
    eexists; eexists; (split; [reflexivity|]);
    try (split; reflexivity);
    try (apply fixnum_tag_allowed; lia).
  - rewrite (proj1 (short_array_tag n ltac:(lia))),
      (proj2 (short_array_tag n ltac:(lia))).
    apply fix_tag_allowed. lia.
  - rewrite (proj1 (short_map_tag n ltac:(lia))).
    rewrite (proj2 (short_map_tag n ltac:(lia))).
    rewrite Z.mod_small by lia. apply fix_tag_allowed. lia.
  - rewrite (proj1 (short_raw_tag l ltac:(lia))).
    rewrite (proj2 (short_raw_tag l ltac:(lia))).
    rewrite Z.mod_small by lia. apply fix_tag_allowed. lia.
Qed.

Lemma reserved_tags_never_emitted_witness :
  valid_op (op_int64 (-1)) /\ emits_tag (op_int64 (-1)) = true /\
  exists tag payload,
    encoding LittleEndian (op_int64 (-1)) = tag :: payload /\
    Wire.reserved_tag tag = false /\
    Wire.wire_tag tag = true.
Proof.
  split; [cbn; lia|]. split; [reflexivity|].
  apply (reserved_tags_never_emitted LittleEndian (op_int64 (-1)));
    [cbn; lia | reflexivity].
Defined.

(** The claim C10 as first stated fails for signed -1: its encoding is the
    single byte [0xff], a negative fixnum, which lies in none of the ranges
    the claim lists. *)
Lemma negative_fixnum_tag_is_not_listed :
  valid_op (op_int8 (-1)) /\
  encoding LittleEndian (op_int8 (-1)) = [0xff] /\
  encoding BigEndian (op_int8 (-1)) = [0xff] /\
  Wire.listed_tag 0xff = false.
Proof.
  split; [cbn; lia|]. repeat split; reflexivity.
Qed.

(** * Further properties of the template *)

(** ** Source widths *)

(** Put the power bounding a value of a given width in numeral form. *)
Ltac eval_pow_in H :=
  repeat match type of H with
         | context [2 ^ ?e] =>
             let p := eval vm_compute in (2 ^ e) in
             progress change (2 ^ e) with p in H
         end.

(** X1.  The unsigned encode operations of all source widths agree: a value
    of an 8-, 16- or 32-bit unsigned type is given the bytes the 64-bit
    operation gives it. *)
Theorem unsigned_width_independent :
  forall (host : byte_order) (user result : Type)
         (append : user -> list Z -> result) (x : user) (w v : Z),
    In w [8; 16; 32; 64] ->
    0 <= v < 2 ^ w ->
    run_op host append x (op_uint w v) = msgpack_pack_uint64 host append x v.
Proof.
  intros host user result append x w v Hw Hv.
  cbn [In] in Hw.
  destruct Hw as [<-|[<-|[<-|[<-|[]]]]]; eval_pow_in Hv;
    unfold op_uint; cbn [Z.eqb Pos.eqb]; unfold_pack;
    split_ltb; try lia; reflexivity.
Qed.

Lemma unsigned_width_independent_witness :
  In 8 [8; 16; 32; 64] /\ 0 <= 200 < 2 ^ 8 /\
  run_op BigEndian buffer_append [] (op_uint 8 200)
    = msgpack_pack_uint64 BigEndian buffer_append [] 200.
Proof.
  split; [cbn; tauto|]. split; [lia|].
  apply (unsigned_width_independent BigEndian buffer buffer buffer_append []
           8 200); [cbn; tauto | lia].
Defined.

(** X2.  The signed encode operations of all source widths agree: a value of
    an 8-, 16- or 32-bit signed type is given the bytes the 64-bit operation
    gives it. *)
Theorem signed_width_independent :
  forall (host : byte_order) (user result : Type)
         (append : user -> list Z -> result) (x : user) (w v : Z),
    In w [8; 16; 32; 64] ->
    - 2 ^ (w - 1) <= v < 2 ^ (w - 1) ->
    run_op host append x (op_int w v) = msgpack_pack_int64 host append x v.
Proof.
  intros host user result append x w v Hw Hv.
  cbn [In] in Hw.
  destruct Hw as [<-|[<-|[<-|[<-|[]]]]]; eval_pow_in Hv;
    unfold op_int; cbn [Z.eqb Pos.eqb]; unfold_pack;
    split_ltb; try lia; reflexivity.
Qed.

Lemma signed_width_independent_witness :
  In 16 [8; 16; 32; 64] /\ - 2 ^ (16 - 1) <= -3000 < 2 ^ (16 - 1) /\
  run_op LittleEndian buffer_append [] (op_int 16 (-3000))
    = msgpack_pack_int64 LittleEndian buffer_append [] (-3000).
Proof.
  split; [cbn; tauto|]. split; [lia|].
  apply (signed_width_independent LittleEndian buffer buffer buffer_append []
           16 (-3000)); [cbn; tauto | lia].
Defined.

(** X3.  On the values both can hold, the signed and the unsigned encode
    operation of a source width append the same bytes. *)
Theorem signed_agrees_with_unsigned :
  forall (host : byte_order) (user result : Type)
         (append : user -> list Z -> result) (x : user) (w v : Z),
    In w [8; 16; 32; 64] ->
    0 <= v < 2 ^ (w - 1) ->
    run_op host append x (op_int w v) = run_op host append x (op_uint w v).
Proof.
  intros host user result append x w v Hw Hv.
  cbn [In] in Hw.
  destruct Hw as [<-|[<-|[<-|[<-|[]]]]]; eval_pow_in Hv;
    unfold op_int, op_uint; cbn [Z.eqb Pos.eqb]; unfold_pack;
    split_ltb; try lia; reflexivity.
Qed.

Lemma signed_agrees_with_unsigned_witness :
  In 32 [8; 16; 32; 64] /\ 0 <= 70000 < 2 ^ (32 - 1) /\
  run_op LittleEndian buffer_append [] (op_int 32 70000)
    = run_op LittleEndian buffer_append [] (op_uint 32 70000).
Proof.
  split; [cbn; tauto|]. split; [lia|].
  apply (signed_agrees_with_unsigned LittleEndian buffer buffer buffer_append []
           32 70000); [cbn; tauto | lia].
Defined.

(** X4.  The bytes appended do not depend on the byte order of the host,
    for every operation of the fixed-width interface and every argument:
    the fixed-width integer routines, the fixed-width (fastint) ones, float,
    double, nil, the booleans, the array, map and raw headers and the raw
    body.  (The routines for the native C types are not among them.) *)
Theorem encoding_host_independent :
  forall (o : pack_op), encoding LittleEndian o = encoding BigEndian o.
Proof.
  intros o. destruct o; unfold_pack; reflexivity.
Qed.

(** X5.  The tiers of the signed 64-bit encode operation, by value:
    [0xd3], [0xd2], [0xd1], [0xd0] below [-2^31], [-2^15], [-2^7], [-2^5];
    one byte from [-2^5] to [2^7 - 1] (the value in two's complement);
    [0xcc], [0xcd], [0xce], [0xcf] from [2^7], [2^8], [2^16], [2^32] on. *)
Theorem signed_64_tiers :
  forall (host : byte_order) (user result : Type)
         (append : user -> list Z -> result) (x : user) (v : Z),
    - 2 ^ 63 <= v < 2 ^ 63 ->
    msgpack_pack_int64 host append x v =
      append x (if v <? - 2 ^ 31 then 0xd3 :: be_bytes 8 v
                else if v <? - 2 ^ 15 then 0xd2 :: be_bytes 4 v
                else if v <? - 2 ^ 7 then 0xd1 :: be_bytes 2 v
                else if v <? - 2 ^ 5 then [0xd0; v + 256]
                else if v <? 0 then [v + 256]
                else if v <? 2 ^ 7 then [v]
                else if v <? 2 ^ 8 then [0xcc; v]
                else if v <? 2 ^ 16 then 0xcd :: be_bytes 2 v
                else if v <? 2 ^ 32 then 0xce :: be_bytes 4 v
                else 0xcf :: be_bytes 8 v).
Proof.
  intros host user result append x v Hv.
  change (2 ^ 5) with 32; change (2 ^ 7) with 128; change (2 ^ 8) with 256;
    change (2 ^ 15) with 32768; change (2 ^ 16) with 65536;
    change (2 ^ 31) with 2147483648; change (2 ^ 32) with 4294967296.
  assert (Hneg : forall d, - 256 <= d < 0 -> d mod 256 = d + 256).
  { intros d Hd. replace d with (d + 256 + (-1) * 256) at 1 by lia.
    rewrite Z.mod_add by lia. apply Z.mod_small. lia. }
  unfold_pack. split_ltb; try lia; try reflexivity;
    first [ rewrite Hneg by lia | rewrite Z.mod_small by lia ]; reflexivity.
Qed.

Lemma signed_64_tiers_witness :
  - 2 ^ 63 <= -33 < 2 ^ 63 /\
  msgpack_pack_int64 LittleEndian buffer_append [] (-33) = [0xd0; 0xdf].
Proof.
  split; [lia|].
  exact (signed_64_tiers LittleEndian buffer buffer buffer_append [] (-33)
           ltac:(lia)).
Defined.

(** ** Bytes, tags and lengths *)

Section Values.

Lemma le_value_le_bytes n x : le_value (le_bytes n x) = x mod 2 ^ (8 * Z.of_nat n).
Proof.
  revert x; induction n; intros x.
  - cbn. now rewrite Z.mod_1_r.
  - cbn [le_bytes le_value]. rewrite IHn.
    replace (2 ^ (8 * Z.of_nat (S n))) with (256 * 2 ^ (8 * Z.of_nat n)).
    2:{ rewrite Nat2Z.inj_succ, <- Z.add_1_r, Z.mul_add_distr_l, Z.pow_add_r by lia.
        change (2 ^ (8 * 1)) with 256. lia. }
    assert (Hp : 0 < 2 ^ (8 * Z.of_nat n)) by (apply Z.pow_pos_nonneg; lia).
    now rewrite Z.rem_mul_r by lia.
Qed.

(** Reading the big-endian image of [x] gives back its low-order bits. *)
Lemma be_value_be_bytes n x : be_value (be_bytes n x) = x mod 2 ^ (8 * Z.of_nat n).
Proof.
  unfold be_value, be_bytes. rewrite rev_involutive. apply le_value_le_bytes.
Qed.

Lemma be_bytes_all_bytes n x : Forall is_byte (be_bytes n x).
Proof. unfold be_bytes. apply Forall_rev, le_bytes_is_byte. Qed.

Lemma firstn_all_bytes n l : Forall is_byte l -> Forall is_byte (firstn n l).
Proof.
  intros H. rewrite <- (firstn_skipn n l) in H. now apply Forall_app in H.
Qed.

Lemma mod_256_is_byte x : is_byte (x mod 256).
Proof. unfold is_byte. apply Z.mod_pos_bound. lia. Qed.

End Values.

(** Decide the comparisons of the goal from the bounds at hand. *)
Ltac decide_tests :=
  repeat match goal with
         | |- context [?a <? ?b] =>
             first [ rewrite (proj2 (Z.ltb_lt a b)) by lia
                   | rewrite (proj2 (Z.ltb_ge a b)) by lia ]
         | |- context [?a <=? ?b] =>
             first [ rewrite (proj2 (Z.leb_le a b)) by lia
                   | rewrite (proj2 (Z.leb_gt a b)) by lia ]
         | |- context [?a =? ?b] =>
             first [ rewrite (proj2 (Z.eqb_eq a b)) by lia
                   | rewrite (proj2 (Z.eqb_neq a b)) by lia ]
         end.

Section Tags.

(** What the first byte of an encoding tells: the kind of the value and the
    number of bytes of the encoding. *)
Lemma encoding_tag host o :
  valid_op o -> emits_tag o = true ->
  exists tag payload,
    encoding host o = tag :: payload /\
    kind_of o = Some (Reader.tag_kind tag) /\
    Reader.tag_length tag = S (length payload).
Proof.
  intros Hvalid Htag.
  destruct o; try discriminate Htag; cbn [valid_op] in Hvalid; cbn [kind_of];
    unfold_pack; cbv [buffer_append app]; split_ltb;
    eexists; eexists; (split; [reflexivity|]);
    try (split; reflexivity);
    try (rewrite fixnum_byte by lia; split_ltb; try (exfalso; lia);
         cbv [Reader.tag_kind Reader.tag_length]; decide_tests;
         split; reflexivity).
  - rewrite (proj1 (short_array_tag n ltac:(lia))),
      (proj2 (short_array_tag n ltac:(lia))).
    cbv [Reader.tag_kind Reader.tag_length]; decide_tests; split; reflexivity.
  - rewrite (proj1 (short_map_tag n ltac:(lia))),
      (proj2 (short_map_tag n ltac:(lia))).
    rewrite Z.mod_small by lia.
    cbv [Reader.tag_kind Reader.tag_length]; decide_tests; split; reflexivity.
  - rewrite (proj1 (short_raw_tag l ltac:(lia))),
      (proj2 (short_raw_tag l ltac:(lia))).
    rewrite Z.mod_small by lia.
    cbv [Reader.tag_kind Reader.tag_length]; decide_tests; split; reflexivity.
Qed.

End Tags.

(** X6.  The first byte settles the rest: two operations with well-typed
    arguments whose encodings start with the same byte encode values of the
    same kind (integer, float, double, nil, true, false, array, map or raw)
    in the same number of bytes. *)
Theorem first_byte_determines_kind_and_length :
  forall (host : byte_order) (o1 o2 : pack_op),
    valid_op o1 -> valid_op o2 ->
    emits_tag o1 = true -> emits_tag o2 = true ->
    hd 0 (encoding host o1) = hd 0 (encoding host o2) ->
    kind_of o1 = kind_of o2 /\
    length (encoding host o1) = length (encoding host o2).
Proof.
  intros host o1 o2 Hv1 Hv2 He1 He2 Hhd.
  destruct (encoding_tag host o1 Hv1 He1) as (t1 & p1 & E1 & K1 & L1).
  destruct (encoding_tag host o2 Hv2 He2) as (t2 & p2 & E2 & K2 & L2).
  rewrite E1, E2 in *. cbn [hd] in Hhd. subst t2.
  split; [congruence|]. cbn [length]. congruence.
Qed.

Lemma first_byte_determines_kind_and_length_witness :
  valid_op (op_uint8 5) /\ valid_op (op_int64 5) /\
  emits_tag (op_uint8 5) = true /\ emits_tag (op_int64 5) = true /\
  hd 0 (encoding LittleEndian (op_uint8 5)) = hd 0 (encoding LittleEndian (op_int64 5)) /\
  kind_of (op_uint8 5) = kind_of (op_int64 5) /\
  length (encoding LittleEndian (op_uint8 5)) = length (encoding LittleEndian (op_int64 5)).
Proof.
  split; [cbn; lia|]. split; [cbn; lia|].
  split; [reflexivity|]. split; [reflexivity|]. split; [reflexivity|].
  apply (first_byte_determines_kind_and_length LittleEndian (op_uint8 5) (op_int64 5));
    first [ reflexivity | cbn; lia ].
Defined.

(** X7.  An operation that emits a tag appends 1, 2, 3, 5 or 9 bytes: never
    none, never more than nine, and a header never more than five. *)
Theorem encoding_length_bounds :
  forall (host : byte_order) (o : pack_op),
    valid_op o ->
    emits_tag o = true ->
    In (length (encoding host o)) [1; 2; 3; 5; 9]%nat /\
    (In (kind_of o) [Some KArray; Some KMap; Some KRaw] ->
     (length (encoding host o) <= 5)%nat).
Proof.
  intros host o Hvalid Htag.
  destruct o; try discriminate Htag; cbn [valid_op] in Hvalid; cbn [kind_of];
    unfold_pack; cbv [buffer_append app]; split_ltb;
    (split; [cbn; tauto | cbn; intros; try lia; intuition discriminate]).
Qed.

Lemma encoding_length_bounds_witness :
  valid_op (op_raw 70000) /\ emits_tag (op_raw 70000) = true /\
  In (length (encoding BigEndian (op_raw 70000))) [1; 2; 3; 5; 9]%nat.
Proof.
  split; [cbn; lia|]. split; [reflexivity|].
  exact (proj1 (encoding_length_bounds BigEndian (op_raw 70000)
                  ltac:(cbn; lia) eq_refl)).
Defined.

(** X8.  Everything appended is a byte: for a well-typed argument each
    element an operation hands to the sink lies in [0, 256), the raw body
    included when the memory it copies holds bytes. *)
Theorem encoding_is_bytes :
  forall (host : byte_order) (o : pack_op),
    valid_op o -> Forall is_byte (encoding host o).
Proof.
  intros host o Hvalid.
  destruct o; cbn [valid_op] in Hvalid;
    unfold_pack; cbv [buffer_append app]; split_ltb;
    repeat first
      [ apply be_bytes_all_bytes
      | apply Forall_nil
      | apply Forall_cons; [first [ apply mod_256_is_byte | unfold is_byte; lia ]|] ].
  apply firstn_all_bytes. tauto.
Qed.

Lemma encoding_is_bytes_witness :
  valid_op (op_int32 (-70000)) /\ Forall is_byte (encoding LittleEndian (op_int32 (-70000))).
Proof.
  split; [cbn; lia|].
  apply (encoding_is_bytes LittleEndian (op_int32 (-70000))). cbn; lia.
Defined.

(** ** Reading integers back *)

Section ReadBack.

Lemma mod_wrap m v : 0 < m -> - m <= v < 0 -> v mod m = v + m.
Proof.
  intros Hm Hv. replace v with (v + m + (-1) * m) at 1 by lia.
  rewrite Z.mod_add by lia. apply Z.mod_small. lia.
Qed.

(** Settle the reading of a wide form: the payload value, then its sign. *)
Ltac read_wide n p :=
  rewrite be_value_be_bytes, ?be_bytes_length;
  change (2 ^ (8 * Z.of_nat n)) with p;
  first [ rewrite Z.mod_small by lia | rewrite mod_wrap by lia ];
  decide_tests; lia.

Lemma read_int_uint64 host v : 0 <= v < 2 ^ 64 ->
  Reader.read_int (encoding host (op_uint64 v)) = v.
Proof.
  intros Hv. change (2 ^ 64) with 18446744073709551616 in Hv.
  unfold_pack; cbv [buffer_append app]; split_ltb; try lia;
    cbv [Reader.read_int];
    try (rewrite Z.mod_small by lia; decide_tests; reflexivity);
    decide_tests; cbn [andb].
  - change [v mod 256] with (be_bytes 1 v). read_wide 1%nat 256.
  - read_wide 2%nat 65536.
  - read_wide 4%nat 4294967296.
  - read_wide 8%nat 18446744073709551616.
Qed.

Lemma read_int_int64 host v : - 2 ^ 63 <= v < 2 ^ 63 ->
  Reader.read_int (encoding host (op_int64 v)) = v.
Proof.
  intros Hv. change (2 ^ 63) with 9223372036854775808 in Hv.
  unfold_pack; cbv [buffer_append app]; split_ltb; try lia;
    cbv [Reader.read_int];
    try (rewrite fixnum_byte by lia; split_ltb; decide_tests; lia);
    decide_tests; cbn [andb].
  - read_wide 8%nat 18446744073709551616.
  - read_wide 4%nat 4294967296.
  - read_wide 2%nat 65536.
  - change [v mod 256] with (be_bytes 1 v). read_wide 1%nat 256.
  - change [v mod 256] with (be_bytes 1 v). read_wide 1%nat 256.
  - read_wide 2%nat 65536.
  - read_wide 4%nat 4294967296.
  - read_wide 8%nat 18446744073709551616.
Qed.

End ReadBack.

(** X9.  Integer encodings are unambiguous: two different values of the
    signed 64-bit type never get the same bytes, nor do two different values
    of the unsigned 64-bit type, nor a signed and an unsigned value that
    differ. *)
Theorem integer_encoding_injective :
  forall (host : byte_order) (a b c d : Z),
    - 2 ^ 63 <= a < 2 ^ 63 -> - 2 ^ 63 <= b < 2 ^ 63 ->
    0 <= c < 2 ^ 64 -> 0 <= d < 2 ^ 64 ->
    (a <> b -> encoding host (op_int64 a) <> encoding host (op_int64 b)) /\
    (c <> d -> encoding host (op_uint64 c) <> encoding host (op_uint64 d)) /\
    (a <> c -> encoding host (op_int64 a) <> encoding host (op_uint64 c)).
Proof.
  intros host a b c d Ha Hb Hc Hd.
  repeat split; intros Hne Heq; apply Hne;
    apply (f_equal Reader.read_int) in Heq;
    rewrite ?read_int_int64, ?read_int_uint64 in Heq by assumption; exact Heq.
Qed.

Lemma integer_encoding_injective_witness :
  - 2 ^ 63 <= -1 < 2 ^ 63 /\ - 2 ^ 63 <= 255 < 2 ^ 63 /\
  0 <= 255 < 2 ^ 64 /\ 0 <= 2 ^ 64 - 1 < 2 ^ 64 /\
  (-1 <> 255 ->
   encoding LittleEndian (op_int64 (-1)) <> encoding LittleEndian (op_int64 255)).
Proof.
  split; [lia|]. split; [lia|]. split; [lia|]. split; [lia|].
  exact (proj1 (integer_encoding_injective LittleEndian (-1) 255 255 (2 ^ 64 - 1)
                  ltac:(lia) ltac:(lia) ltac:(lia) ltac:(lia))).
Defined.

(** X10.  A value farther from zero never gets a shorter encoding: for
    signed values on the same side of zero and for unsigned values the
    number of bytes appended grows with the magnitude. *)
Theorem encoding_length_monotone :
  forall (host : byte_order) (a b u v : Z),
    - 2 ^ 63 <= b < 2 ^ 63 ->
    0 <= a <= b \/ b <= a <= 0 ->
    0 <= u <= v -> v < 2 ^ 64 ->
    (length (encoding host (op_int64 a)) <= length (encoding host (op_int64 b)))%nat /\
    (length (encoding host (op_uint64 u)) <= length (encoding host (op_uint64 v)))%nat.
Proof.
  intros host a b u v Hb Hab Huv Hv.
  change (2 ^ 63) with 9223372036854775808 in Hb.
  change (2 ^ 64) with 18446744073709551616 in Hv.
  split; unfold_pack; cbv [buffer_append app]; split_ltb;
    cbn [length be_bytes le_bytes rev app]; lia.
Qed.

Lemma encoding_length_monotone_witness :
  - 2 ^ 63 <= -40000 < 2 ^ 63 /\ (0 <= -129 <= -40000 \/ -40000 <= -129 <= 0) /\
  0 <= 255 <= 256 /\ 256 < 2 ^ 64 /\
  (length (encoding LittleEndian (op_int64 (-129)))
     <= length (encoding LittleEndian (op_int64 (-40000))))%nat /\
  (length (encoding LittleEndian (op_uint64 255))
     <= length (encoding LittleEndian (op_uint64 256)))%nat.
Proof.
  split; [lia|]. split; [lia|]. split; [lia|]. split; [lia|].
  apply (encoding_length_monotone LittleEndian (-129) (-40000) 255 256); lia.
Defined.

(** ** Fixed-width integers, floats *)

(** X11.  The fixed-width unsigned routines never narrow: a value of a
    [w]-bit unsigned type always gets the tag of that width and [w / 8]
    payload bytes, and this is what the narrowing encode operation appends
    exactly when the value needs the full width. *)
Theorem fixed_width_unsigned_never_narrows :
  forall (host : byte_order) (w v : Z),
    In w [8; 16; 32; 64] ->
    0 <= v < 2 ^ w ->
    length (encoding host (op_fix_uint w v)) = S (Z.to_nat (w / 8)) /\
    (encoding host (op_fix_uint w v) = encoding host (op_uint w v)
     <-> (if w =? 8 then 2 ^ 7 else 2 ^ (w / 2)) <= v).
Proof.
  intros host w v Hw Hv.
  cbn [In] in Hw.
  destruct Hw as [<-|[<-|[<-|[<-|[]]]]]; eval_pow_in Hv;
    unfold op_fix_uint, op_uint; cbn [Z.eqb Pos.eqb]; unfold_pack;
    cbv [buffer_append app be_bytes le_bytes rev];
    (split; [reflexivity|]);
    match goal with
    | |- context [2 ^ ?e <= _] =>
        let p := eval vm_compute in (2 ^ e) in change (2 ^ e) with p
    end;
    split_ltb; (split; [intros Heq | intros Hle]);
    try lia; try reflexivity; discriminate Heq.
Qed.

Lemma fixed_width_unsigned_never_narrows_witness :
  In 16 [8; 16; 32; 64] /\ 0 <= 5 < 2 ^ 16 /\
  length (encoding LittleEndian (op_fix_uint 16 5)) = 3%nat.
Proof.
  split; [cbn; tauto|]. split; [lia|].
  exact (proj1 (fixed_width_unsigned_never_narrows LittleEndian 16 5
                  ltac:(cbn; tauto) ltac:(lia))).
Defined.

(** X12.  The fixed-width signed routines never narrow either, and never
    switch to an unsigned form: a value of a [w]-bit signed type always gets
    the signed tag of that width and [w / 8] payload bytes, which is what
    the narrowing encode operation appends exactly when the value is
    negative and needs the full width. *)
Theorem fixed_width_signed_never_narrows :
  forall (host : byte_order) (w v : Z),
    In w [8; 16; 32; 64] ->
    - 2 ^ (w - 1) <= v < 2 ^ (w - 1) ->
    length (encoding host (op_fix_int w v)) = S (Z.to_nat (w / 8)) /\
    0xd0 <= hd 0 (encoding host (op_fix_int w v)) <= 0xd3 /\
    (encoding host (op_fix_int w v) = encoding host (op_int w v)
     <-> v < - (if w =? 8 then 2 ^ 5 else 2 ^ (w / 2 - 1))).
Proof.
  intros host w v Hw Hv.
  cbn [In] in Hw.
  destruct Hw as [<-|[<-|[<-|[<-|[]]]]]; eval_pow_in Hv;
    unfold op_fix_int, op_int; cbn [Z.eqb Pos.eqb]; unfold_pack;
    cbv [buffer_append app be_bytes le_bytes rev];
    (split; [reflexivity|]); (split; [cbn [hd]; lia|]);
    match goal with
    | |- context [2 ^ ?e] =>
        let p := eval vm_compute in (2 ^ e) in change (2 ^ e) with p
    end;
    split_ltb; (split; [intros Heq | intros Hle]);
    try lia; try reflexivity; discriminate Heq.
Qed.

Lemma fixed_width_signed_never_narrows_witness :
  In 8 [8; 16; 32; 64] /\ - 2 ^ (8 - 1) <= 5 < 2 ^ (8 - 1) /\
  length (encoding BigEndian (op_fix_int 8 5)) = 2%nat.
Proof.
  split; [cbn; tauto|]. split; [lia|].
  exact (proj1 (fixed_width_signed_never_narrows BigEndian 8 5
                  ltac:(cbn; tauto) ltac:(lia))).
Defined.



(** ** Headers and bodies *)

(** X14.  The headers announce their count: for a count or length below
    [2^32] the array, map and raw headers carry it exactly, in the low bits
    of a short tag ([0x90 | n], [0x80 | n], [0xa0 | l]) or as the payload
    read in network order, where the raw header follows the tiers [l < 32],
    [l < 65536], else. *)
Theorem headers_announce_count :
  forall (host : byte_order) (user result : Type)
         (append : user -> list Z -> result) (x : user) (n l : Z),
    0 <= n < 2 ^ 32 ->
    0 <= l < 2 ^ 32 ->
    msgpack_pack_raw host append x l =
      append x (if l <? 32 then [Z.lor 0xa0 l]
                else if l <? 65536 then 0xda :: be_bytes 2 l
                else 0xdb :: be_bytes 4 l) /\
    (exists tag payload,
       encoding host (op_array n) = tag :: payload /\
       (if tag <? 0xa0 then tag - 0x90 else be_value payload) = n) /\
    (exists tag payload,
       encoding host (op_map n) = tag :: payload /\
       (if tag <? 0x90 then tag - 0x80 else be_value payload) = n) /\
    (exists tag payload,
       encoding host (op_raw l) = tag :: payload /\
       (if tag <? 0xc0 then tag - 0xa0 else be_value payload) = l).
Proof.
  intros host user result append x n l Hn Hl.
  change (2 ^ 32) with 4294967296 in Hn, Hl.
  split; [|split; [|split]].
  - unfold_pack. split_ltb; try reflexivity.
    rewrite (proj1 (short_raw_tag l ltac:(lia))).
    rewrite Z.mod_small; [reflexivity|].
    rewrite (proj2 (short_raw_tag l ltac:(lia))). lia.
  - unfold_pack; cbv [buffer_append app]; split_ltb;
      eexists; eexists; (split; [reflexivity|]).
    + rewrite (proj1 (short_array_tag n ltac:(lia))),
        (proj2 (short_array_tag n ltac:(lia))).
      decide_tests. lia.
    + decide_tests. rewrite be_value_be_bytes. apply Z.mod_small.
      change (2 ^ (8 * Z.of_nat 2)) with 65536. lia.
    + decide_tests. rewrite be_value_be_bytes. apply Z.mod_small.
      change (2 ^ (8 * Z.of_nat 4)) with 4294967296. lia.
  - unfold_pack; cbv [buffer_append app]; split_ltb;
      eexists; eexists; (split; [reflexivity|]).
    + rewrite (proj1 (short_map_tag n ltac:(lia))),
        (proj2 (short_map_tag n ltac:(lia))).
      rewrite Z.mod_small by lia. decide_tests. lia.
    + decide_tests. rewrite be_value_be_bytes. apply Z.mod_small.
      change (2 ^ (8 * Z.of_nat 2)) with 65536. lia.
    + decide_tests. rewrite be_value_be_bytes. apply Z.mod_small.
      change (2 ^ (8 * Z.of_nat 4)) with 4294967296. lia.
  - unfold_pack; cbv [buffer_append app]; split_ltb;
      eexists; eexists; (split; [reflexivity|]).
    + rewrite (proj1 (short_raw_tag l ltac:(lia))),
        (proj2 (short_raw_tag l ltac:(lia))).
      rewrite Z.mod_small by lia. decide_tests. lia.
    + decide_tests. rewrite be_value_be_bytes. apply Z.mod_small.
      change (2 ^ (8 * Z.of_nat 2)) with 65536. lia.
    + decide_tests. rewrite be_value_be_bytes. apply Z.mod_small.
      change (2 ^ (8 * Z.of_nat 4)) with 4294967296. lia.
Qed.

Lemma headers_announce_count_witness :
  0 <= 16 < 2 ^ 32 /\ 0 <= 31 < 2 ^ 32 /\
  msgpack_pack_raw BigEndian buffer_append [] 31 = [0xbf].
Proof.
  split; [lia|]. split; [lia|].
  exact (proj1 (headers_announce_count BigEndian buffer buffer buffer_append []
                  16 31 ltac:(lia) ltac:(lia))).
Defined.

(** X15.  Header and body agree: on a growable buffer, the raw header for a
    length [l] below [2^32] followed by the raw body of [l] bytes leaves the
    old contents, then the header of the tier of [l] ([0xa0 | l], or [0xda]
    and 2 bytes, or [0xdb] and 4 bytes), then the first [l] bytes of the
    memory given; the length the header announces is the number of body
    bytes that follow it, and dropping the old contents and the header
    gives the body back. *)
Theorem raw_header_then_body :
  forall (host : byte_order) (x : buffer) (b : list Z) (l : Z),
    0 <= l <= Z.of_nat (length b) ->
    l < 2 ^ 32 ->
    let header := if l <? 32 then [Z.lor 0xa0 l]
                  else if l <? 65536 then 0xda :: be_bytes 2 l
                  else 0xdb :: be_bytes 4 l in
    let body := firstn (Z.to_nat l) b in
    let after_body :=
      msgpack_pack_raw_body buffer_append
        (msgpack_pack_raw host buffer_append x l) b l in
    after_body = x ++ header ++ body /\
    (if hd 0 header <? 0xc0 then hd 0 header - 0xa0 else be_value (tl header))
      = Z.of_nat (length body) /\
    skipn (length x + length header) after_body = body.
Proof.
  intros host x b l Hl Hl32 header body after_body.
  change (2 ^ 32) with 4294967296 in Hl32.
  assert (Hlen : Z.of_nat (length body) = l).
  { subst body. rewrite length_firstn. lia. }
  assert (Hout : after_body = x ++ header ++ body).
  { subst after_body header body.
    unfold msgpack_pack_raw_body, buffer_append at 1. rewrite app_assoc.
    f_equal.
    unfold_pack; unfold buffer_append; split_ltb; f_equal; try reflexivity.
    rewrite (proj1 (short_raw_tag l ltac:(lia))).
    rewrite Z.mod_small; [reflexivity|].
    rewrite (proj2 (short_raw_tag l ltac:(lia))). lia. }
  split; [exact Hout|]. split.
  - rewrite Hlen. subst header.
    destruct (Z.ltb_spec l 32); [|destruct (Z.ltb_spec l 65536)]; cbn [hd tl].
    + rewrite (proj2 (short_raw_tag l ltac:(lia))). decide_tests. lia.
    + decide_tests. rewrite be_value_be_bytes. apply Z.mod_small.
      change (2 ^ (8 * Z.of_nat 2)) with 65536. lia.
    + decide_tests. rewrite be_value_be_bytes. apply Z.mod_small.
      change (2 ^ (8 * Z.of_nat 4)) with 4294967296. lia.
  - rewrite Hout, app_assoc, <- length_app.
    rewrite skipn_app, skipn_all, Nat.sub_diag. reflexivity.
Qed.

Lemma raw_header_then_body_witness :
  0 <= 2 <= Z.of_nat (length [0x68; 0x69; 0x21]) /\ 2 < 2 ^ 32 /\
  msgpack_pack_raw_body buffer_append
    (msgpack_pack_raw LittleEndian buffer_append [0xc0] 2) [0x68; 0x69; 0x21] 2
  = [0xc0; 0xa2; 0x68; 0x69].
Proof.
  split; [cbn; lia|]. split; [lia|].
  exact (proj1 (raw_header_then_body LittleEndian [0xc0] [0x68; 0x69; 0x21] 2
                  ltac:(cbn; lia) ltac:(lia))).
Defined.

(** ** Byte swapping *)

Section Swap.

Lemma byteswap64_range x : 0 <= byteswap64 x < 2 ^ 64.
Proof.
  assert (Hnn : 0 <= byteswap64 x).
  { unfold byteswap64.
    repeat (apply Z.lor_nonneg; split); apply Z.land_nonneg; right; lia. }
  split; [exact Hnn|].
  assert (Hhigh : Z.shiftr (byteswap64 x) 64 = 0).
  { unfold byteswap64.
    rewrite !Z.shiftr_lor, !Z.shiftr_land.
    cbn [Z.shiftr Z.shiftl Z.opp Pos.iter Z.div2 Pos.div2].
    now rewrite !Z.land_0_r. }
  rewrite Z.shiftr_div_pow2 in Hhigh by lia.
  apply Z.div_small_iff in Hhigh; lia.
Qed.

Lemma le_value_range l : Forall is_byte l ->
  0 <= le_value l < 2 ^ (8 * Z.of_nat (length l)).
Proof.
  induction 1 as [|b t Hb Ht IH]; [cbn; lia|].
  cbn [le_value length]. unfold is_byte in Hb.
  replace (2 ^ (8 * Z.of_nat (S (length t))))
    with (256 * 2 ^ (8 * Z.of_nat (length t))).
  2:{ rewrite Nat2Z.inj_succ, <- Z.add_1_r, Z.mul_add_distr_l, Z.pow_add_r by lia.
      change (2 ^ (8 * 1)) with 256. lia. }
  lia.
Qed.

(** Reversing the bytes of an [n]-byte value twice gives the value back. *)
Lemma network_order_involutive n x : 0 <= x < 2 ^ (8 * Z.of_nat n) ->
  be_value (le_bytes n (be_value (le_bytes n x))) = x.
Proof.
  intros Hx. rewrite le_bytes_network_order.
  rewrite be_value_be_bytes. now apply Z.mod_small.
Qed.

End Swap.

(** X16.  The byte-order conversions are their own inverses and stay in
    range: on either host, converting a 16-, 32- or 64-bit value twice
    gives the value back, and the 64-bit byte swap of any value fits in
    64 bits. *)
Theorem byte_order_conversion_involutive :
  forall (host : byte_order) (a b c : Z),
    0 <= a < 2 ^ 16 -> 0 <= b < 2 ^ 32 -> 0 <= c < 2 ^ 64 ->
    _msgpack_be16 host (_msgpack_be16 host a) = a /\
    _msgpack_be32 host (_msgpack_be32 host b) = b /\
    _msgpack_be64 host (_msgpack_be64 host c) = c /\
    0 <= byteswap64 c < 2 ^ 64.
Proof.
  intros host a b c Ha Hb Hc.
  split; [|split; [|split]]; [| | |apply byteswap64_range].
  - destruct host; [|reflexivity]. cbn [_msgpack_be16]. unfold ntohs.
    cbn [object_bytes].
    assert (Hr : 0 <= be_value (le_bytes 2 (a mod 2 ^ 16)) < 2 ^ 16).
    { unfold be_value.
      pose proof (le_value_range (rev (le_bytes 2 (a mod 2 ^ 16)))
                    (Forall_rev (le_bytes_is_byte _ _))) as H.
      now rewrite length_rev, le_bytes_length in H. }
    rewrite (Z.mod_small _ _ Hr), (Z.mod_small a) by assumption.
    now apply (network_order_involutive 2).
  - destruct host; [|reflexivity]. cbn [_msgpack_be32]. unfold ntohl.
    cbn [object_bytes].
    assert (Hr : 0 <= be_value (le_bytes 4 (b mod 2 ^ 32)) < 2 ^ 32).
    { unfold be_value.
      pose proof (le_value_range (rev (le_bytes 4 (b mod 2 ^ 32)))
                    (Forall_rev (le_bytes_is_byte _ _))) as H.
      now rewrite length_rev, le_bytes_length in H. }
    rewrite (Z.mod_small _ _ Hr), (Z.mod_small b) by assumption.
    now apply (network_order_involutive 4).
  - destruct host; [|reflexivity]. cbn [_msgpack_be64].
    assert (E : le_bytes 8 (byteswap64 (byteswap64 c)) = le_bytes 8 c).
    { rewrite le_bytes_byteswap64. unfold be_bytes at 1.
      rewrite le_bytes_byteswap64. unfold be_bytes. apply rev_involutive. }
    apply (f_equal le_value) in E. rewrite !le_value_le_bytes in E.
    change (2 ^ (8 * Z.of_nat 8)) with (2 ^ 64) in E.
    rewrite (Z.mod_small c) in E by assumption.
    rewrite Z.mod_small in E by apply byteswap64_range. exact E.
Qed.

Lemma byte_order_conversion_involutive_witness :
  0 <= 0x0102 < 2 ^ 16 /\ 0 <= 0x01020304 < 2 ^ 32 /\
  0 <= 0x0102030405060708 < 2 ^ 64 /\
  _msgpack_be64 LittleEndian (_msgpack_be64 LittleEndian 0x0102030405060708)
    = 0x0102030405060708.
Proof.
  split; [lia|]. split; [lia|]. split; [lia|].
  exact (proj1 (proj2 (proj2
    (byte_order_conversion_involutive LittleEndian 0x0102 0x01020304
       0x0102030405060708 ltac:(lia) ltac:(lia) ltac:(lia))))).
Defined.

(** ** The routines for the native C types *)

Import NativeTypes.

Section NativeDispatch.

Context {user result : Type} (append : user -> list Z -> result).

Lemma signed_max_values :
  signed_max Size2 = 0x7fff /\ signed_max Size4 = 0x7fffffff /\
  signed_max Size8 = 0x7fffffffffffffff.
Proof. repeat split; reflexivity. Qed.

Lemma unsigned_max_values :
  unsigned_max Size2 = 0xffff /\ unsigned_max Size4 = 0xffffffff /\
  unsigned_max Size8 = 0xffffffffffffffff.
Proof. repeat split; reflexivity. Qed.

(** Give the limits of the goal and of [H] their numerals. *)
Ltac eval_limits H :=
  destruct signed_max_values as (Es2 & Es4 & Es8);
  destruct unsigned_max_values as (Eu2 & Eu4 & Eu8);
  rewrite ?Es2, ?Es4, ?Es8, ?Eu2, ?Eu4, ?Eu8 in H;
  rewrite ?Es2, ?Es4, ?Es8, ?Eu2, ?Eu4, ?Eu8;
  clear Es2 Es4 Es8 Eu2 Eu4 Eu8.

(** The selection made for a signed type of size [s], whichever of its two
    macros are defined: the bytes are those of the 64-bit operation. *)
Lemma signed_dispatch host (x : user) d (s : native_size) (has_size has_max : bool) :
  - signed_max s - 1 <= d <= signed_max s ->
  (let SIZEOF_T := macro_value has_size (sizeof s) in
   let T_MAX := macro_value has_max (signed_max s) in
   if has_size || has_max then
     if (SIZEOF_T =? 2) || (T_MAX =? 0x7fff) then
       msgpack_pack_real_int16 host append x d
     else if (SIZEOF_T =? 4) || (T_MAX =? 0x7fffffff) then
       msgpack_pack_real_int32 host append x d
     else
       msgpack_pack_real_int64 host append x d
   else
     if sizeof s =? 2 then
       msgpack_pack_real_int16 host append x d
     else if sizeof s =? 4 then
       msgpack_pack_real_int32 host append x d
     else
       msgpack_pack_real_int64 host append x d)
  = msgpack_pack_int64 host append x d.
Proof.
  intros Hd. cbv zeta.
  destruct s; eval_limits Hd; destruct has_size, has_max;
    cbv [macro_value sizeof orb]; cbn [Z.eqb Pos.eqb];
    unfold_pack; split_ltb; try lia; reflexivity.
Qed.

Lemma unsigned_dispatch host (x : user) d (s : native_size) (has_size has_max : bool) :
  0 <= d <= unsigned_max s ->
  (let SIZEOF_T := macro_value has_size (sizeof s) in
   let UT_MAX := macro_value has_max (unsigned_max s) in
   if has_size || has_max then
     if (SIZEOF_T =? 2) || (UT_MAX =? 0xffff) then
       msgpack_pack_real_uint16 host append x d
     else if (SIZEOF_T =? 4) || (UT_MAX =? 0xffffffff) then
       msgpack_pack_real_uint32 host append x d
     else
       msgpack_pack_real_uint64 host append x d
   else
     if sizeof s =? 2 then
       msgpack_pack_real_uint16 host append x d
     else if sizeof s =? 4 then
       msgpack_pack_real_uint32 host append x d
     else
       msgpack_pack_real_uint64 host append x d)
  = msgpack_pack_uint64 host append x d.
Proof.
  intros Hd. cbv zeta.
  destruct s; eval_limits Hd; destruct has_size, has_max;
    cbv [macro_value sizeof orb]; cbn [Z.eqb Pos.eqb];
    unfold_pack; split_ltb; try lia; reflexivity.
Qed.

(** On an object of their own size the macros read the byte they read in
    the fixed-width routines. *)
Lemma real_uint_in_own_size host (x : user) d :
  msgpack_pack_real_uint16_in host append 2 x d = msgpack_pack_real_uint16 host append x d /\
  msgpack_pack_real_uint32_in host append 4 x d = msgpack_pack_real_uint32 host append x d /\
  msgpack_pack_real_uint64_in host append 8 x d = msgpack_pack_real_uint64 host append x d.
Proof. repeat split; reflexivity. Qed.

End NativeDispatch.

(** X17.  The native signed routines: on every build target ([int] of 4 or
    8 bytes, the other types of 2, 4 or 8) and whichever of the [SIZEOF_*]
    and [*_MAX] macros are defined, a value of [short], [int], [long] or
    [long long] gets exactly the bytes the signed 64-bit encode operation
    gives it. *)
Theorem native_signed_as_int64 :
  forall (host : byte_order) (tgt : target) (user result : Type)
         (append : user -> list Z -> result) (x : user) (s i l ll : Z),
    - signed_max (size_short tgt) - 1 <= s <= signed_max (size_short tgt) ->
    - signed_max (size_int tgt) - 1 <= i <= signed_max (size_int tgt) ->
    - signed_max (size_long tgt) - 1 <= l <= signed_max (size_long tgt) ->
    - signed_max (size_long_long tgt) - 1 <= ll <= signed_max (size_long_long tgt) ->
    msgpack_pack_short host tgt append x s = msgpack_pack_int64 host append x s /\
    msgpack_pack_int host tgt append x i = msgpack_pack_int64 host append x i /\
    msgpack_pack_long host tgt append x l = msgpack_pack_int64 host append x l /\
    msgpack_pack_long_long host tgt append x ll = msgpack_pack_int64 host append x ll.
Proof.
  intros host tgt user result append x s i l ll Hs Hi Hl Hll.
  repeat split.
  - exact (signed_dispatch append host x s _ _ _ Hs).
  - exact (signed_dispatch append host x i _ _ _ Hi).
  - exact (signed_dispatch append host x l _ _ _ Hl).
  - exact (signed_dispatch append host x ll _ _ _ Hll).
Qed.


Lemma native_signed_as_int64_witness :
  - signed_max (size_short lp64_with_limits) - 1 <= -1
    <= signed_max (size_short lp64_with_limits) /\
  - signed_max (size_int lp64_with_limits) - 1 <= -1
    <= signed_max (size_int lp64_with_limits) /\
  - signed_max (size_long lp64_with_limits) - 1 <= - 2 ^ 40
    <= signed_max (size_long lp64_with_limits) /\
  - signed_max (size_long_long lp64_with_limits) - 1 <= -1
    <= signed_max (size_long_long lp64_with_limits) /\
  msgpack_pack_long LittleEndian lp64_with_limits buffer_append [] (- 2 ^ 40)
    = msgpack_pack_int64 LittleEndian buffer_append [] (- 2 ^ 40).
Proof.
  assert (H2 : - signed_max Size2 - 1 <= -1 <= signed_max Size2)
    by (vm_compute; split; discriminate).
  assert (H4 : - signed_max Size4 - 1 <= -1 <= signed_max Size4)
    by (vm_compute; split; discriminate).
  assert (H8 : - signed_max Size8 - 1 <= -1 <= signed_max Size8)
    by (vm_compute; split; discriminate).
  assert (H8' : - signed_max Size8 - 1 <= - 2 ^ 40 <= signed_max Size8)
    by (vm_compute; split; discriminate).
  split; [exact H2|]. split; [exact H4|]. split; [exact H8'|]. split; [exact H8|].
  exact (proj1 (proj2 (proj2
    (native_signed_as_int64 LittleEndian lp64_with_limits buffer buffer buffer_append []
       (-1) (-1) (- 2 ^ 40) (-1) H2 H4 H8' H8)))).
Defined.

(** X18.  The native unsigned routines: on every build target a value of
    [unsigned short], [unsigned int] or [unsigned long long] gets exactly
    the bytes of the unsigned 64-bit encode operation; a value of [unsigned
    long] does when [SIZEOF_LONG] or [ULONG_MAX] is defined or [int] and
    [long] have the same size. *)
Theorem native_unsigned_as_uint64 :
  forall (host : byte_order) (tgt : target) (user result : Type)
         (append : user -> list Z -> result) (x : user) (s i l ll : Z),
    0 <= s <= unsigned_max (size_short tgt) ->
    0 <= i <= unsigned_max (size_int tgt) ->
    0 <= l <= unsigned_max (size_long tgt) ->
    0 <= ll <= unsigned_max (size_long_long tgt) ->
    msgpack_pack_unsigned_short host tgt append x s = msgpack_pack_uint64 host append x s /\
    msgpack_pack_unsigned_int host tgt append x i = msgpack_pack_uint64 host append x i /\
    msgpack_pack_unsigned_long_long host tgt append x ll
      = msgpack_pack_uint64 host append x ll /\
    (defined_SIZEOF_LONG tgt || defined_ULONG_MAX tgt = true
       \/ size_int tgt = size_long tgt ->
     msgpack_pack_unsigned_long host tgt append x l = msgpack_pack_uint64 host append x l).
Proof.
  intros host tgt user result append x s i l ll Hs Hi Hl Hll.
  split; [|split; [|split]].
  - exact (unsigned_dispatch append host x s _ _ _ Hs).
  - exact (unsigned_dispatch append host x i _ _ _ Hi).
  - exact (unsigned_dispatch append host x ll _ _ _ Hll).
  - intros Hlong.
    pose proof (unsigned_dispatch append host x l (size_long tgt)
                  (defined_SIZEOF_LONG tgt) (defined_ULONG_MAX tgt) Hl) as Hd.
    cbv zeta in Hd. unfold msgpack_pack_unsigned_long. cbv zeta.
    destruct (defined_SIZEOF_LONG tgt || defined_ULONG_MAX tgt) eqn:Edef;
      [exact Hd|].
    destruct Hlong as [Hlong|Hlong]; [discriminate Hlong|].
    rewrite Hlong.
    destruct (size_long tgt); cbv [sizeof sizeof_nat]; cbn [Z.eqb Pos.eqb];
      exact Hd.
Qed.

Lemma native_unsigned_as_uint64_witness :
  0 <= 1 <= unsigned_max (size_short lp64_bare) /\
  0 <= 2 ^ 31 <= unsigned_max (size_int lp64_bare) /\
  0 <= 2 ^ 40 <= unsigned_max (size_long lp64_with_limits) /\
  0 <= 2 ^ 63 <= unsigned_max (size_long_long lp64_bare) /\
  msgpack_pack_unsigned_int BigEndian lp64_bare buffer_append [] (2 ^ 31)
    = msgpack_pack_uint64 BigEndian buffer_append [] (2 ^ 31) /\
  msgpack_pack_unsigned_long_long BigEndian lp64_bare buffer_append [] (2 ^ 63)
    = msgpack_pack_uint64 BigEndian buffer_append [] (2 ^ 63) /\
  (defined_SIZEOF_LONG lp64_with_limits || defined_ULONG_MAX lp64_with_limits = true
   \/ size_int lp64_with_limits = size_long lp64_with_limits) /\
  msgpack_pack_unsigned_long BigEndian lp64_with_limits buffer_append [] (2 ^ 40)
    = msgpack_pack_uint64 BigEndian buffer_append [] (2 ^ 40).
Proof.
  assert (H2 : 0 <= 1 <= unsigned_max Size2) by (vm_compute; split; discriminate).
  assert (H4 : 0 <= 2 ^ 31 <= unsigned_max Size4) by (vm_compute; split; discriminate).
  assert (H8 : 0 <= 2 ^ 63 <= unsigned_max Size8) by (vm_compute; split; discriminate).
  assert (H8' : 0 <= 2 ^ 40 <= unsigned_max Size8) by (vm_compute; split; discriminate).
  split; [exact H2|]. split; [exact H4|]. split; [exact H8'|]. split; [exact H8|].
  pose proof (native_unsigned_as_uint64 BigEndian lp64_bare buffer buffer
                buffer_append [] 1 (2 ^ 31) (2 ^ 40) (2 ^ 63) H2 H4 H8' H8) as Hbare.
  pose proof (native_unsigned_as_uint64 BigEndian lp64_with_limits buffer buffer
                buffer_append [] 1 (2 ^ 31) (2 ^ 40) (2 ^ 63) H2 H4 H8' H8) as Hlim.
  split; [exact (proj1 (proj2 Hbare))|].
  split; [exact (proj1 (proj2 (proj2 Hbare)))|].
  split; [left; reflexivity|].
  exact (proj2 (proj2 (proj2 Hlim)) (or_introl eq_refl)).
Defined.

(** X19.  The [sizeof] path of the routine for [unsigned long]: on a target
    where neither [SIZEOF_LONG] nor [ULONG_MAX] is defined, [int] has 4
    bytes and [long] has 8, the routine works by the size of [unsigned int]:
    a value [d] of [2^16] or more is appended in the 32-bit form of its low
    32 bits, and on a big-endian host a value [e] below [2^8] is appended
    with the byte 0 in place of its low byte. *)
Theorem unsigned_long_sizeof_path :
  forall (host : byte_order) (tgt : target) (user result : Type)
         (append : user -> list Z -> result) (x : user) (d e : Z),
    defined_SIZEOF_LONG tgt = false ->
    defined_ULONG_MAX tgt = false ->
    size_int tgt = Size4 ->
    size_long tgt = Size8 ->
    2 ^ 16 <= d < 2 ^ 64 ->
    0 <= e < 2 ^ 8 ->
    msgpack_pack_unsigned_long host tgt append x d
      = append x (0xce :: be_bytes 4 (d mod 2 ^ 32)) /\
    msgpack_pack_unsigned_long BigEndian tgt append x e
      = append x (if e <? 2 ^ 7 then [0] else [0xcc; 0]).
Proof.
  intros host tgt user result append x d e Hsize Hmax Hint Hlong Hd He.
  change (2 ^ 16) with 65536 in Hd. change (2 ^ 8) with 256 in He.
  change (2 ^ 7) with 128.
  assert (Hbyte : nth 3 (object_bytes BigEndian 8 e) 0 = 0).
  { cbn [object_bytes]. rewrite nth_be_bytes by lia.
    rewrite byte_at_div by lia.
    change (8 * Z.of_nat (8 - 1 - 3)) with 32.
    rewrite Z.div_small by lia. reflexivity. }
  unfold msgpack_pack_unsigned_long. rewrite Hsize, Hmax, Hint, Hlong.
  cbv zeta. cbv [orb sizeof sizeof_nat]. cbn [Z.eqb Pos.eqb].
  change (Z.to_nat 8) with 8%nat.
  unfold msgpack_pack_real_uint32_in, TAKE8_32_in.
  change (Z.shiftl 1 7) with 128; change (Z.shiftl 1 8) with 256;
    change (Z.shiftl 1 16) with 65536.
  split.
  - split_ltb; try lia. rewrite store_uint32_be32.
    change (2 ^ 32) with (2 ^ (8 * Z.of_nat 4)). now rewrite be_bytes_mod.
  - cbv iota. split_ltb; try lia; rewrite Hbyte; reflexivity.
Qed.

Lemma unsigned_long_sizeof_path_witness :
  defined_SIZEOF_LONG lp64_bare = false /\
  defined_ULONG_MAX lp64_bare = false /\
  size_int lp64_bare = Size4 /\
  size_long lp64_bare = Size8 /\
  2 ^ 16 <= 2 ^ 32 + 5 < 2 ^ 64 /\
  0 <= 5 < 2 ^ 8 /\
  msgpack_pack_unsigned_long LittleEndian lp64_bare buffer_append [] (2 ^ 32 + 5)
    = [0xce; 0; 0; 0; 5] /\
  msgpack_pack_unsigned_long BigEndian lp64_bare buffer_append [] 5 = [0].
Proof.
  do 4 (split; [reflexivity|]). do 2 (split; [lia|]).
  pose proof (unsigned_long_sizeof_path LittleEndian lp64_bare buffer buffer
                buffer_append [] (2 ^ 32 + 5) 5 eq_refl eq_refl eq_refl eq_refl
                ltac:(lia) ltac:(lia)) as H1.
  pose proof (unsigned_long_sizeof_path BigEndian lp64_bare buffer buffer
                buffer_append [] (2 ^ 32 + 5) 5 eq_refl eq_refl eq_refl eq_refl
                ltac:(lia) ltac:(lia)) as H2.
  split.
  - exact (proj1 H1).
  - exact (proj2 H2).
Defined.

(** ** The sink *)

Section CompleteBytes.

(** Each routine, for a well-typed argument and any sink, is the append of
    the complete byte sequence the wire format gives the value. *)
Lemma run_op_complete host {user result : Type}
    (append : user -> list Z -> result) (x : user) o :
  valid_op o ->
  run_op host append x o = append x (Complete.complete_bytes o).
Proof.
  intros Hvalid.
  assert (Hneg : forall d, - 256 <= d < 0 -> d mod 256 = d + 256)
    by (intros d Hd; apply mod_wrap; lia).
  destruct o; cbn [valid_op] in Hvalid; eval_pow_in Hvalid;
    unfold_pack;
    cbv [Complete.complete_bytes Complete.unsigned_bytes Complete.signed_bytes
         Complete.header_bytes];
    change (2 ^ 5) with 32; change (2 ^ 7) with 128; change (2 ^ 8) with 256;
    change (2 ^ 15) with 32768; change (2 ^ 16) with 65536;
    change (2 ^ 31) with 2147483648; change (2 ^ 32) with 4294967296;
    split_ltb; try lia; try reflexivity;
    try (first [ rewrite Hneg by lia | rewrite Z.mod_small by lia ]; reflexivity).
  - change 256 with (2 ^ 8).
    now rewrite (proj1 (short_array_tag n ltac:(lia))).
  - change 256 with (2 ^ 8) at 1.
    rewrite (proj1 (short_map_tag n ltac:(lia))).
    rewrite Z.mod_small; [reflexivity|].
    rewrite (proj2 (short_map_tag n ltac:(lia))). lia.
  - change 256 with (2 ^ 8) at 1.
    rewrite (proj1 (short_raw_tag l ltac:(lia))).
    rewrite Z.mod_small; [reflexivity|].
    rewrite (proj2 (short_raw_tag l ltac:(lia))). lia.
  - change 4294967296 with (2 ^ (8 * Z.of_nat 4)). now rewrite be_bytes_mod.
Qed.

End CompleteBytes.

(** C9.  Append atomicity: every encode operation, for any well-typed
    argument, hands the complete byte sequence of the value (the tag and the
    whole payload the tag announces, as the wire format gives them) to the
    sink in exactly one append call: whatever the sink, the outcome of the
    operation is the outcome of that one call, so the whole encoding is
    appended or, when the call fails, nothing is; a sink that records its
    calls gets exactly one new entry, never two partial ones. *)
Theorem append_atomicity :
  forall (host : byte_order) (o : pack_op),
    valid_op o ->
    (forall (user result : Type) (append : user -> list Z -> result) (x : user),
        run_op host append x o = append x (Complete.complete_bytes o)) /\
    (forall (log : call_log),
        run_op host record_call log o = log ++ [Complete.complete_bytes o]) /\
    (emits_tag o = true ->
     length (Complete.complete_bytes o)
       = Reader.tag_length (hd 0 (Complete.complete_bytes o))).
Proof.
  intros host o Hvalid. split; [|split].
  - intros user result append x. now apply run_op_complete.
  - intros log. now rewrite run_op_complete.
  - intros Htag.
    destruct (encoding_tag host o Hvalid Htag) as (tag & payload & E & _ & L).
    unfold encoding in E. rewrite run_op_complete in E by assumption.
    cbv [buffer_append app] in E. rewrite E. cbn [hd length]. now rewrite L.
Qed.

Lemma append_atomicity_witness :
  valid_op (op_float 0x3f800000) /\
  run_op LittleEndian record_call [[0xc0]] (op_float 0x3f800000)
    = [[0xc0]; [0xca; 0x3f; 0x80; 0x00; 0x00]].
Proof.
  split; [cbn; lia|].
  exact (proj1 (proj2 (append_atomicity LittleEndian (op_float 0x3f800000)
                         ltac:(cbn; lia))) [[0xc0]]).
Defined.
